(** * runmigration: revision-ordered migration selection and execution

    A shallow embedding of [bin/runmigration.js]: the command-line script that
    discovers migration files, sorts them by the revision embedded in the file
    name, resolves the [to]/[from]/[toRev]/[fromRev] selectors and hands the
    result to the migration framework.

    JavaScript numbers are modelled as exact integers plus [NaN]; the model
    coincides with IEEE doubles on the safe-integer range. Line numbers
    refer to the current revision of the script, with the [toRev]/[fromRev]
    options. *)

From Stdlib Require Import ZArith Ascii String List Lia.
From Stdlib Require Import Sorting.Sorted Sorting.Permutation.
From stdpp Require Import base list strings gmap sorting.
From Stdlib Require DecimalString DecimalNat DecimalFacts.

Local Open Scope string_scope.
Local Open Scope Z_scope.

#[local] Set Warnings "-clear-no-such-hyp".

(** ** JavaScript values used by the script *)

Inductive JSNum : Type :=
| NaN
| Num (z : Z).

(** An option value as [command-line-args] delivers it: missing
    ([undefined]), present without a value ([null]) or present. *)
Inductive Arg (A : Type) : Type :=
| Undefined
| Null
| Given (a : A).

Arguments Undefined {A}.
Arguments Null {A}.
Arguments Given {A} a.

Module JS.

(** [a < b] on numbers: false as soon as one side is [NaN]. *)
Definition lt (a b : JSNum) : bool :=
  match a, b with
  | Num x, Num y => x <? y
  | _, _ => false
  end.

(** [a > b] *)
Definition gt (a b : JSNum) : bool := lt b a.

(** [a === b] on numbers: [NaN] differs from everything. *)
Definition strict_eq (a b : JSNum) : bool :=
  match a, b with
  | Num x, Num y => x =? y
  | _, _ => false
  end.

(** ToBoolean on a number: [0] and [NaN] are falsy. *)
Definition truthy_num (n : JSNum) : bool :=
  match n with
  | NaN => false
  | Num z => negb (z =? 0)
  end.

(** ToBoolean on a string: only the empty string is falsy. *)
Definition truthy_str (s : string) : bool :=
  match s with
  | EmptyString => false
  | String _ _ => true
  end.

Definition truthy {A} (t : A -> bool) (v : Arg A) : bool :=
  match v with
  | Undefined | Null => false
  | Given a => t a
  end.

(** ToNumber on an option that holds a number. *)
Definition to_number (v : Arg JSNum) : JSNum :=
  match v with
  | Undefined => NaN
  | Null => Num 0
  | Given n => n
  end.

(** StrWhiteSpaceChar, on the ASCII range. *)
Definition is_white (c : ascii) : bool :=
  match nat_of_ascii c with
  | 9%nat | 10%nat | 11%nat | 12%nat | 13%nat | 32%nat => true
  | _ => false
  end.

Fixpoint trim_start (s : string) : string :=
  match s with
  | String c r => if is_white c then trim_start r else s
  | EmptyString => s
  end.

(** Value of a character as a digit of a radix up to 36. *)
Definition digit_value (c : ascii) : option Z :=
  let n := Z.of_nat (nat_of_ascii c) in
  if (48 <=? n) && (n <=? 57) then Some (n - 48)
  else if (97 <=? n) && (n <=? 122) then Some (n - 87)
  else if (65 <=? n) && (n <=? 90) then Some (n - 55)
  else None.

(** The longest prefix of [s] made of digits of [radix], as a number;
    [acc] is [None] until a first digit has been read. *)
Fixpoint read_digits (radix : Z) (s : string) (acc : option Z) : option Z :=
  match s with
  | String c r =>
      match digit_value c with
      | Some d =>
          if d <? radix
          then read_digits radix r (Some (radix * default 0 acc + d))
          else acc
      | None => acc
      end
  | EmptyString => acc
  end.

(** [parseInt(s)] without a radix argument: leading white space is
    skipped, a sign is read, a [0x]/[0X] prefix selects radix 16, and the
    longest run of digits is converted; no digit at all gives [NaN]. The
    result is the integer written, which is what the code reads up to
    2^53 in absolute value; beyond that the code rounds to a double. *)
Definition parseInt (s : string) : JSNum :=
  let s1 := trim_start s in
  let '(neg, s2) :=
    match s1 with
    | String "-"%char r => (true, r)
    | String "+"%char r => (false, r)
    | _ => (false, s1)
    end in
  let '(radix, s3) :=
    match s2 with
    | String "0"%char (String "x"%char r) => (16, r)
    | String "0"%char (String "X"%char r) => (16, r)
    | _ => (10, s2)
    end in
  match read_digits radix s3 None with
  | None => NaN
  | Some n => Num (if neg then - n else n)
  end.

(** [parseInt(n)] on a number: the number is printed and read back. *)
Definition parseInt_num (n : JSNum) : JSNum := n.

(** [s.indexOf('.') !== 0] *)
Definition not_dot_first (s : string) : bool :=
  match s with
  | String "."%char _ => false
  | _ => true
  end.

(** [s.slice(-3)]: the last three characters, or all of [s] when it is
    shorter. *)
Definition slice_last3 (s : string) : string :=
  let n := String.length s in
  substring (n - 3)%nat 3%nat s.

(** [s.split('-', 2)[0]]: what precedes the first dash, or all of [s]. *)
Fixpoint split_dash_0 (s : string) : string :=
  match s with
  | String c r => if Ascii.eqb c "-" then EmptyString else String c (split_dash_0 r)
  | EmptyString => EmptyString
  end.

Fixpoint has_slash (p : string) : bool :=
  match p with
  | String c r => Ascii.eqb c "/" || has_slash r
  | EmptyString => false
  end.

(** [path.basename(p)], POSIX flavour, for a path that does not end in a
    slash: what follows the last slash. *)
Fixpoint basename (p : string) : string :=
  match p with
  | String c r =>
      if Ascii.eqb c "/" || has_slash r then basename r else p
  | EmptyString => EmptyString
  end.

(** [path.join(dir, file)] *)
Definition path_join (dir file : string) : string := dir ++ "/" ++ file.

End JS.

(** ** Data model *)

(** The object a migration script exports (typedef [AutoMigration]); the
    [up] and [down] methods are opaque and live in the environment. *)
Record AutoMigration : Type := {
  info_revision : Z;          (* info.revision *)
  pos : JSNum;                (* step to start running at *)
  useTransaction : bool;
  migration_name : string     (* name, assigned by getMigrator *)
}.

(** One discovered file (typedef [AutoMigrationFile]); [migration] is
    [None] when the script exports a falsy value. *)
Record AutoMigrationFile : Type := {
  name : string;
  fullPath : string;
  migration : option AutoMigration
}.

Inductive Direction : Type := Up | Down.

(** What [require(path)] does for a migration script: it throws, or the
    script's export is falsy, or it is an object with the members of the
    typedef. An export that is an object without [up] or [down] (an empty
    script exports such an object; line 74 then throws a TypeError) is
    outside this model. *)
Inductive Required : Type :=
| RequireThrows
| RequireFalsy
| RequireModule (m : AutoMigration).

(** The parsed command line ([optionDefinitions]). *)
Record Options : Type := {
  opt_to : Arg string;
  opt_from : Arg string;
  opt_toRev : Arg JSNum;
  opt_fromRev : Arg JSNum;
  opt_rollback : bool;
  opt_pos : JSNum;
  opt_no_transaction : bool;
  opt_list : bool;
  opt_help : bool
}.

(** Everything the script reads from outside: the two directories that
    [pathConfig(options)] returns, the file system, the module loader and
    the outcome of the migration scripts. *)
Record Env : Type := {
  migrationsDir : string;
  modelsDir : string;
  existsSync : string -> bool;
  readdirSync : string -> list string;
  require_models : bool;                       (* require(modelsDir) returns *)
  require : string -> Required;
  applyScript : AutoMigration -> JSNum -> bool;   (* true: the script succeeds *)
  revertScript : AutoMigration -> JSNum -> bool
}.

(** ** The process: tracking store, console, exceptions and exit *)

Inductive Exn : Type :=
| ModuleNotLoaded (path : string)        (* require threw *)
| UnableToLoad (path : string)           (* Error raised by getMigrator *)
| ExecutionError (migration : string).   (* a script rejected *)

Inductive Outcome : Type := applied | reverted | errored.

Record ReportEntry : Type := {
  entry_name : string;
  entry_direction : Direction;
  entry_outcome : Outcome
}.

Inductive Output : Type :=
| Line (s : string)
| Shown (title : string) (names : gset string)
| Ran (names : list string)
| Failure (e : Exn).

Record Process : Type := {
  tracking : gset string;                         (* applied names *)
  console : list Output;
  calls : list (Direction * string * JSNum);      (* scripts entered, with position *)
  report : list ReportEntry
}.

Inductive Result (A : Type) : Type :=
| Value (a : A)
| Thrown (e : Exn)
| Exited (code : Z).

Arguments Value {A} a.
Arguments Thrown {A} e.
Arguments Exited {A} code.

Definition Proc (A : Type) : Type := Process -> Result A * Process.

Module Proc.

Definition ret {A} (a : A) : Proc A := fun p => (Value a, p).

Definition bind {A B} (m : Proc A) (k : A -> Proc B) : Proc B :=
  fun p =>
    match m p with
    | (Value a, p') => k a p'
    | (Thrown e, p') => (Thrown e, p')
    | (Exited c, p') => (Exited c, p')
    end.

Definition throw {A} (e : Exn) : Proc A := fun p => (Thrown e, p).

(** [process.exit(code)] *)
Definition exit {A} (code : Z) : Proc A := fun p => (Exited code, p).

(** [try { body } catch (e) { handler(e) }]: an exit is not caught. *)
Definition try_catch {A} (body : Proc A) (handler : Exn -> Proc A) : Proc A :=
  fun p =>
    match body p with
    | (Thrown e, p') => handler e p'
    | r => r
    end.

Definition print (o : Output) : Proc unit :=
  fun p =>
    (Value tt,
     {| tracking := tracking p; console := console p ++ [o];
        calls := calls p; report := report p |}).

Definition get_tracking : Proc (gset string) := fun p => (Value (tracking p), p).

Definition set_tracking (s : gset string) : Proc unit :=
  fun p =>
    (Value tt,
     {| tracking := s; console := console p;
        calls := calls p; report := report p |}).

Definition record_call (d : Direction) (n : string) (at_pos : JSNum) : Proc unit :=
  fun p =>
    (Value tt,
     {| tracking := tracking p; console := console p;
        calls := calls p ++ [(d, n, at_pos)]; report := report p |}).

Definition record_entry (e : ReportEntry) : Proc unit :=
  fun p =>
    (Value tt,
     {| tracking := tracking p; console := console p;
        calls := calls p; report := report p ++ [e] |}).

(** [l.forEach(f)] / [l.map(f)] with an effectful [f]. *)
Fixpoint map_list {A B} (f : A -> Proc B) (l : list A) : Proc (list B) :=
  match l with
  | [] => ret []
  | x :: r =>
      bind (f x) (fun y => bind (map_list f r) (fun ys => ret (y :: ys)))
  end.

End Proc.

#[global] Instance proc_ret : MRet Proc := @Proc.ret.
#[global] Instance proc_bind : MBind Proc := fun A B k m => Proc.bind m k.

(** ** Catalog: discovery and ordering (Main, lines 142-177) *)

(** The [filter] callback: not a dot file, and ends in [.js]. *)
Definition is_migration_file (file : string) : bool :=
  JS.not_dot_first file && String.eqb (JS.slice_last3 file) ".js".

(** The [map] callback: the record of one file; [require] may throw. *)
Definition load_file (env : Env) (file : string) : Proc AutoMigrationFile :=
  let full := JS.path_join (migrationsDir env) file in
  match require env full with
  | RequireThrows => Proc.throw (ModuleNotLoaded full)
  | RequireFalsy =>
      Proc.ret {| name := file; fullPath := full; migration := None |}
  | RequireModule m =>
      Proc.ret {| name := file; fullPath := full; migration := Some m |}
  end.

(** [parseInt(path.basename(name).split('-',2)[0])] *)
Definition revision_of (file : string) : JSNum :=
  JS.parseInt (JS.split_dash_0 (JS.basename file)).

(** The [sort] comparator. *)
Definition compare_revision (rollback : bool) (a b : AutoMigrationFile) : Z :=
  let revA := revision_of (name a) in
  let revB := revision_of (name b) in
  if rollback then
    if JS.lt revA revB then 1
    else if JS.gt revA revB then -1
    else 0
  else
    if JS.lt revA revB then -1
    else if JS.gt revA revB then 1
    else 0.

(** [Array.prototype.sort(cmp)]: a stable sort; an element moves behind
    another one only when [cmp] is positive. For a comparator that is a
    consistent order the language fixes this result; for an inconsistent
    one (a [NaN] revision among numbers) the order is left to the engine,
    and only the fact that the result is a permutation is relied on. *)
Fixpoint sort_insert {A} (cmp : A -> A -> Z) (x : A) (l : list A) : list A :=
  match l with
  | [] => [x]
  | y :: r => if 0 <? cmp x y then y :: sort_insert cmp x r else x :: l
  end.

Fixpoint array_sort {A} (cmp : A -> A -> Z) (l : list A) : list A :=
  match l with
  | [] => []
  | x :: r => sort_insert cmp x (array_sort cmp r)
  end.

(** The names the catalog is built from. *)
Definition discovered (env : Env) : list string :=
  filter (fun f => is_migration_file f = true) (readdirSync env (migrationsDir env)).

(** [migrationFiles]: filter, load, sort by revision. *)
Definition load_catalog (env : Env) (rollback : bool) : Proc (list AutoMigrationFile) :=
  files ← Proc.map_list (load_file env) (discovered env);
  Proc.ret (array_sort (compare_revision rollback) files).

(** ** getMigrator (lines 56-80) *)

Record MigrationOptions : Type := {
  opt_useTransaction : bool;
  step : JSNum
}.

(** The assignments made to the script's own object, which is updated in
    place; its [info] is left alone. *)
Definition configure (migrationOptions : MigrationOptions) (file : AutoMigrationFile)
    (m : AutoMigration) : AutoMigration :=
  {| info_revision := info_revision m;
     pos := if JS.gt (step migrationOptions) (Num 0)
            then step migrationOptions else pos m;
     useTransaction := opt_useTransaction migrationOptions;
     migration_name := name file |}.

(** The callback of [migrationFiles.map] inside getMigrator. *)
Definition prepare (migrationOptions : MigrationOptions) (file : AutoMigrationFile)
  : Proc AutoMigration :=
  match migration file with
  | None => Proc.throw (UnableToLoad (fullPath file))
  | Some m =>
      (if JS.gt (step migrationOptions) (Num 0)
       then Proc.print (Line "Set position to") else Proc.ret tt);;
      Proc.ret (configure migrationOptions file m)
  end.

(** The migrator is the framework instance over this list of migrations. *)
Definition getMigrator (migrationFiles : list AutoMigrationFile)
    (migrationOptions : MigrationOptions) : Proc (list AutoMigration) :=
  Proc.map_list (prepare migrationOptions) migrationFiles.

(** ** Range resolution (Main, lines 203-241) *)

Record MethodOptions : Type := {
  to : Arg string;
  from : Arg string
}.

(** [migrationFiles.find(e => e.migration ? e.migration.info.revision === rev : false)] *)
Definition find_revision (migrationFiles : list AutoMigrationFile) (rev : Arg JSNum)
  : option AutoMigrationFile :=
  List.find
    (fun e =>
       match migration e with
       | Some m =>
           match rev with
           | Given r => JS.strict_eq (Num (info_revision m)) r
           | _ => false
           end
       | None => false
       end)
    migrationFiles.

Definition resolve (migrationFiles : list AutoMigrationFile) (rollback : bool)
    (options : Options) : MethodOptions :=
  let toMigration := opt_to options in
  let fromMigration := opt_from options in
  let toRev := opt_toRev options in
  let fromRev := opt_fromRev options in
  let no_to := negb (JS.truthy JS.truthy_str toMigration) in
  let no_from := negb (JS.truthy JS.truthy_str fromMigration) in
  let has_toRev := JS.truthy JS.truthy_num toRev in
  let has_fromRev := JS.truthy JS.truthy_num fromRev in
  if no_to && has_toRev && no_from && has_fromRev then
    if (JS.lt (JS.to_number toRev) (JS.to_number fromRev) && rollback)
       || (JS.gt (JS.to_number toRev) (JS.to_number fromRev) && negb rollback)
    then
      match find_revision migrationFiles toRev, find_revision migrationFiles fromRev with
      | Some _toMigration, Some _fromMigration =>
          {| to := Given (name _toMigration); from := Given (name _fromMigration) |}
      | _, _ => {| to := toMigration; from := fromMigration |}
      end
    else {| to := toMigration; from := fromMigration |}
  else if no_to && has_toRev && no_from && negb has_fromRev then
    match find_revision migrationFiles toRev with
    | Some _toMigration => {| to := Given (name _toMigration); from := fromMigration |}
    | None => {| to := toMigration; from := fromMigration |}
    end
  else if no_to && negb has_toRev && no_from && has_fromRev then
    match find_revision migrationFiles fromRev with
    | Some _fromMigration => {| to := toMigration; from := Given (name _fromMigration) |}
    | None => {| to := toMigration; from := fromMigration |}
    end
  else {| to := toMigration; from := fromMigration |}.

(** An endpoint is unresolved when it is falsy: the runner then has no
    boundary on that side. *)
Definition endpoint (v : Arg string) : option string :=
  match v with
  | Given s => if JS.truthy_str s then Some s else None
  | _ => None
  end.

(** ** The migration framework *)

Module Executor.

(** Modelled from the spec: the Executor collaborator of section 6
    (applyScript, revertScript, markApplied, markReverted, listApplied,
    listPending), supplied to the script by the migration framework and
    the database, neither of which is part of the source. The tracking
    store is the set of applied names. This is markApplied(name). *)
Definition markApplied (n : string) : Proc unit :=
  s ← Proc.get_tracking; Proc.set_tracking ({[ n ]} ∪ s).

(** Modelled from the spec: markReverted(name) of the same collaborator. *)
Definition markReverted (n : string) : Proc unit :=
  s ← Proc.get_tracking; Proc.set_tracking (s ∖ {[ n ]}).

(** Modelled from the spec: listApplied(), the set of applied names;
    it stands for [migrator.executed()]. *)
Definition listApplied : Proc (gset string) := Proc.get_tracking.

(** Modelled from the spec: listPending(), the names of the catalog that
    are not applied; it stands for [migrator.pending()]. *)
Definition listPending (catalog : list AutoMigration) : Proc (gset string) :=
  s ← Proc.get_tracking;
  Proc.ret (list_to_set (migration_name <$> catalog) ∖ s).

(** Modelled from the spec: applyScript(record, position) and
    revertScript(record, position); the script is entered at the position
    its record carries, and its outcome comes from the environment. *)
Definition enter (env : Env) (d : Direction) (m : AutoMigration) : Proc bool :=
  Proc.record_call d (migration_name m) (pos m);;
  Proc.ret (match d with
            | Up => applyScript env m (pos m)
            | Down => revertScript env m (pos m)
            end).

End Executor.

Module Runner.

(** Modelled from the spec: the Runner of section 4.3, which stands for
    [migrator.up] and [migrator.down] of the migration framework, not part
    of the source. It keeps the records after [from] (exclusive) up to
    [to] (inclusive), runs them in the order given, marks each name in the
    tracking store before it moves on, and stops at the first failure.
    These are the records after [from]. *)
Fixpoint after_from (n : string) (l : list AutoMigration) : list AutoMigration :=
  match l with
  | [] => []
  | m :: r => if String.eqb (migration_name m) n then r else after_from n r
  end.

(** Modelled from the spec: the records up to [to], inclusive. *)
Fixpoint until_to (n : string) (l : list AutoMigration) : list AutoMigration :=
  match l with
  | [] => []
  | m :: r => if String.eqb (migration_name m) n then [m] else m :: until_to n r
  end.

(** Modelled from the spec: the sublist of a range; an unresolved
    endpoint is no boundary. *)
Definition select (range : MethodOptions) (l : list AutoMigration) : list AutoMigration :=
  let l1 := match endpoint (from range) with
            | Some n => after_from n l
            | None => l
            end in
  match endpoint (to range) with
  | Some n => until_to n l1
  | None => l1
  end.

(** Modelled from the spec: the store update after a successful script. *)
Definition mark (d : Direction) (n : string) : Proc unit :=
  match d with
  | Up => Executor.markApplied n
  | Down => Executor.markReverted n
  end.

(** Modelled from the spec: the outcome tag of a successful script. *)
Definition done (d : Direction) : Outcome :=
  match d with Up => applied | Down => reverted end.

(** Modelled from the spec: the records are processed in turn; a success
    is persisted before the next record, the first failure ends the run
    with an error and the remaining records are not attempted. *)
Fixpoint execute (env : Env) (d : Direction) (l : list AutoMigration)
  : Proc (list string) :=
  match l with
  | [] => Proc.ret []
  | m :: r =>
      ok ← Executor.enter env d m;
      if ok : bool then
        mark d (migration_name m);;
        Proc.record_entry {| entry_name := migration_name m;
                             entry_direction := d;
                             entry_outcome := done d |};;
        rest ← execute env d r;
        Proc.ret (migration_name m :: rest)
      else
        Proc.record_entry {| entry_name := migration_name m;
                             entry_direction := d;
                             entry_outcome := errored |};;
        Proc.throw (ExecutionError (migration_name m))
  end.

(** Modelled from the spec: run(orderedRecords, range, direction). *)
Definition run (env : Env) (orderedRecords : list AutoMigration)
    (range : MethodOptions) (d : Direction) : Proc (list string) :=
  execute env d (select range orderedRecords).

End Runner.

(** ** Main (lines 89-259) and the top-level wrapper (lines 261-268) *)

(** The [--list] branch (lines 189-200). *)
Definition list_migrations (migrator : list AutoMigration) : Proc unit :=
  executed ← Executor.listApplied;
  Proc.print (Shown "Executed:" executed);;
  pending ← Executor.listPending migrator;
  Proc.print (Shown "Pending:" pending);;
  Proc.exit 0.

(** The [try] block and its [catch] (lines 202-258). *)
Definition run_migrations (env : Env) (options : Options)
    (migrationFiles : list AutoMigrationFile) (migrator : list AutoMigration)
  : Proc unit :=
  let rollback := opt_rollback options in
  Proc.try_catch
    (let methodOptions := resolve migrationFiles rollback options in
     Proc.print (Line "Migration Options");;
     migrations ←
       (if negb rollback then
          Proc.print (Line "Migrating up");;
          Runner.run env migrator methodOptions Up
        else
          Proc.print (Line "Migrating down");;
          Runner.run env migrator methodOptions Down);
     Proc.print (Ran migrations);;
     Proc.exit 0)
    (fun migError =>
       Proc.print (Failure migError);;
       Proc.exit 1).

Definition Main (env : Env) (options : Options) : Proc unit :=
  if negb (existsSync env (modelsDir env)) then
    Proc.print (Line "Can't find models directory. Use `sequelize init` to create it")
  else if negb (existsSync env (migrationsDir env)) then
    Proc.print (Line "Can't find migrations directory. Use `sequelize init` to create it")
  else if opt_help options then
    Proc.print (Line "Simple sequelize migration execution tool");;
    Proc.exit 0
  else
    (if require_models env then Proc.ret tt
     else Proc.throw (ModuleNotLoaded (modelsDir env)));;
    let fromPos := JS.parseInt_num (opt_pos options) in
    let rollback := opt_rollback options in
    let noTransaction := opt_no_transaction options in
    migrationFiles ← load_catalog env rollback;
    Proc.print (Line "Migrations found:");;
    Proc.map_list (fun file => Proc.print (Line (name file))) migrationFiles;;
    migrator ← getMigrator migrationFiles
                 {| opt_useTransaction := negb noTransaction; step := fromPos |};
    if opt_list options then list_migrations migrator
    else run_migrations env options migrationFiles migrator.

(** The anonymous async wrapper: an exception that leaves [Main] is printed
    and the process exits with 1. *)
Definition wrapper (env : Env) (options : Options) : Proc unit :=
  Proc.try_catch (Main env options)
    (fun error => Proc.print (Failure error);; Proc.exit 1).

(** The exit code of the process: the argument of [process.exit], or 0
    when the script runs to its end without calling it. *)
Definition exit_code {A} (r : Result A) : Z :=
  match r with
  | Exited c => c
  | Value _ => 0
  | Thrown _ => 1
  end.

Definition idle (store : gset string) : Process :=
  {| tracking := store; console := []; calls := []; report := [] |}.

(** A whole invocation against a tracking store. *)
Definition invoke (env : Env) (options : Options) (store : gset string)
  : Result unit * Process :=
  wrapper env options (idle store).

(** ** Vocabulary of the statements *)

(** The record [load_file] builds when [require] returns. *)
Definition file_record (env : Env) (file : string) : AutoMigrationFile :=
  let full := JS.path_join (migrationsDir env) file in
  {| name := file; fullPath := full;
     migration := match require env full with
                  | RequireModule m => Some m
                  | _ => None
                  end |}.

(** Revisions of two records in non-decreasing order; both must be numbers. *)
Definition ascending (a b : AutoMigrationFile) : Prop :=
  match revision_of (name a), revision_of (name b) with
  | Num x, Num y => x <= y
  | _, _ => False
  end.

Definition descending (a b : AutoMigrationFile) : Prop :=
  match revision_of (name a), revision_of (name b) with
  | Num x, Num y => y <= x
  | _, _ => False
  end.

(** Every discovered script can be required. *)
Definition requirable (env : Env) : Prop :=
  forall f, f ∈ discovered env ->
    require env (JS.path_join (migrationsDir env) f) <> RequireThrows.

(** The process after some more console output. *)
Definition printed (p : Process) (out : list Output) : Process :=
  {| tracking := tracking p; console := console p ++ out;
     calls := calls p; report := report p |}.

(** The migrations getMigrator hands to the framework when every script
    exports an object. *)
Definition configured (migrationOptions : MigrationOptions)
    (migrationFiles : list AutoMigrationFile) : list AutoMigration :=
  omap (fun file => configure migrationOptions file <$> migration file) migrationFiles.

(** Every script is required without an exception and exports an object,
    and so does the models directory. *)
Definition loads (env : Env) : bool :=
  require_models env &&
  forallb (fun f => match require env (JS.path_join (migrationsDir env) f) with
                    | RequireModule _ => true
                    | _ => false
                    end) (discovered env).

(** The options getMigrator receives from [Main]. *)
Definition migration_options (options : Options) : MigrationOptions :=
  {| opt_useTransaction := negb (opt_no_transaction options);
     step := JS.parseInt_num (opt_pos options) |}.

(** [migrationFiles] and the migrator of a run whose scripts all load. *)
Definition catalog_of (env : Env) (options : Options) : list AutoMigrationFile :=
  array_sort (compare_revision (opt_rollback options)) (file_record env <$> discovered env).

Definition migrator_of (env : Env) (options : Options) : list AutoMigration :=
  configured (migration_options options) (catalog_of env options).

(** The direction of the run and the records the runner selects. *)
Definition direction (options : Options) : Direction :=
  if opt_rollback options then Down else Up.

Definition selected (env : Env) (options : Options) : list AutoMigration :=
  Runner.select (resolve (catalog_of env options) (opt_rollback options) options)
    (migrator_of env options).

(** Outcome of the script of one record, entered at the record's position. *)
Definition script_ok (env : Env) (d : Direction) (m : AutoMigration) : bool :=
  match d with
  | Up => applyScript env m (pos m)
  | Down => revertScript env m (pos m)
  end.

(** The tracking store after the runner has marked a list of names. *)
Definition marked (d : Direction) (names : list string) (store : gset string)
  : gset string :=
  match d with
  | Up => list_to_set names ∪ store
  | Down => store ∖ list_to_set names
  end.

(** What the executor records when it enters the script of a record, and
    the report entry of a record. *)
Definition call_of (d : Direction) (m : AutoMigration) : Direction * string * JSNum :=
  (d, migration_name m, pos m).

Definition entry_of (d : Direction) (o : Outcome) (m : AutoMigration) : ReportEntry :=
  {| entry_name := migration_name m; entry_direction := d; entry_outcome := o |}.

(** No name and no revision selector is present. *)
Definition unselected (options : Options) : Prop :=
  JS.truthy JS.truthy_str (opt_to options) = false /\
  JS.truthy JS.truthy_str (opt_from options) = false /\
  JS.truthy JS.truthy_num (opt_toRev options) = false /\
  JS.truthy JS.truthy_num (opt_fromRev options) = false.

(** The tracking store after a series of invocations on the same project,
    starting from the empty store. *)
Definition replay (env : Env) (history : list Options) : gset string :=
  fold_left (fun store options => tracking (snd (invoke env options store))) history ∅.

(** Both directories exist. *)
Definition directories_exist (env : Env) : bool :=
  existsSync env (modelsDir env) && existsSync env (migrationsDir env).

(** What [resolve] returns when it leaves both names as they came. *)
Definition unchanged (options : Options) : MethodOptions :=
  {| to := opt_to options; from := opt_from options |}.

(** The revision pair agrees with the direction of the run. *)
Definition consistent (rollback : bool) (toRev fromRev : Z) : Prop :=
  if rollback then toRev < fromRev else toRev > fromRev.

(** The command line with one selector replaced. *)
Definition with_toRev (v : Arg JSNum) (o : Options) : Options :=
  {| opt_to := opt_to o; opt_from := opt_from o;
     opt_toRev := v; opt_fromRev := opt_fromRev o;
     opt_rollback := opt_rollback o; opt_pos := opt_pos o;
     opt_no_transaction := opt_no_transaction o;
     opt_list := opt_list o; opt_help := opt_help o |}.

Definition with_fromRev (v : Arg JSNum) (o : Options) : Options :=
  {| opt_to := opt_to o; opt_from := opt_from o;
     opt_toRev := opt_toRev o; opt_fromRev := v;
     opt_rollback := opt_rollback o; opt_pos := opt_pos o;
     opt_no_transaction := opt_no_transaction o;
     opt_list := opt_list o; opt_help := opt_help o |}.

(** A project with four migrations, used to exercise the statements. *)
Module Sample.

Definition script (revision : Z) : AutoMigration :=
  {| info_revision := revision; pos := Num 0;
     useTransaction := true; migration_name := "" |}.

Definition listing : list string :=
  ["20-name.js"; "10-name.js"; ".eslintrc.js"; "40-name.js"; "README.md"; "30-name.js"].

Definition env : Env :=
  {| migrationsDir := "migrations";
     modelsDir := "models";
     existsSync := fun _ => true;
     readdirSync := fun _ => listing;
     require_models := true;
     require := fun p => match revision_of p with
                         | Num z => RequireModule (script z)
                         | NaN => RequireFalsy
                         end;
     applyScript := fun _ _ => true;
     revertScript := fun _ _ => true |}.

(** No selector, forward run. *)
Definition plain : Options :=
  {| opt_to := Undefined; opt_from := Undefined;
     opt_toRev := Undefined; opt_fromRev := Undefined;
     opt_rollback := false; opt_pos := Num 0;
     opt_no_transaction := false; opt_list := false; opt_help := false |}.

Definition rollback : Options :=
  {| opt_to := Undefined; opt_from := Undefined;
     opt_toRev := Undefined; opt_fromRev := Undefined;
     opt_rollback := true; opt_pos := Num 0;
     opt_no_transaction := false; opt_list := false; opt_help := false |}.

(** The catalog of this project for a forward run. *)
Definition catalog : list AutoMigrationFile :=
  array_sort (compare_revision false) (file_record env <$> discovered env).

(** Forward run resumed at step 3: [--pos 3]. *)
Definition resume : Options :=
  {| opt_to := Undefined; opt_from := Undefined;
     opt_toRev := Undefined; opt_fromRev := Undefined;
     opt_rollback := false; opt_pos := Num 3;
     opt_no_transaction := false; opt_list := false; opt_help := false |}.

(** [--list] *)
Definition list_only : Options :=
  {| opt_to := Undefined; opt_from := Undefined;
     opt_toRev := Undefined; opt_fromRev := Undefined;
     opt_rollback := false; opt_pos := Num 0;
     opt_no_transaction := false; opt_list := true; opt_help := false |}.

(** The same project with other directory contents or script outcomes. *)
Definition variant (exists_ : string -> bool) (files : list string)
    (apply : AutoMigration -> JSNum -> bool) : Env :=
  {| migrationsDir := migrationsDir env;
     modelsDir := modelsDir env;
     existsSync := exists_;
     readdirSync := fun _ => files;
     require_models := true;
     require := fun _ => RequireModule (script 1);
     applyScript := apply;
     revertScript := revertScript env |}.


(** No models directory. *)
Definition no_models : Env :=
  variant (fun d => negb (String.eqb d "models")) listing (fun _ _ => true).

(** The script of [20-name.js] fails. *)
Definition failing : Env :=
  variant (fun _ => true) listing
    (fun m _ => negb (String.eqb (migration_name m) "20-name.js")).

(** A catalog with a migration of revision 0. *)
Definition from_zero : list AutoMigrationFile :=
  [ {| name := "0-init.js"; fullPath := "migrations/0-init.js";
       migration := Some (script 0) |};
    {| name := "5-next.js"; fullPath := "migrations/5-next.js";
       migration := Some (script 5) |} ].

End Sample.

(** ** Vocabulary of the further properties *)

#[global] Instance JSNum_eq_dec : EqDecision JSNum.
Proof. solve_decision. Defined.

(** The decimal numeral of a natural number, as a revision is written at
    the head of a file name. *)
Definition decimal (n : nat) : string :=
  DecimalString.NilEmpty.string_of_uint (Nat.to_uint n).

(** The revision a file name carries is the one its script declares. *)
Definition well_named (migrationFiles : list AutoMigrationFile) : Prop :=
  forall e m, e ∈ migrationFiles -> migration e = Some m ->
    revision_of (name e) = Num (info_revision m).

(** No two names of the list carry the same revision. *)
Definition distinct_revisions (l : list AutoMigrationFile) : Prop :=
  NoDup ((fun f => revision_of (name f)) <$> l).

(** Every name of the list carries a number. *)
Definition numbered (l : list AutoMigrationFile) : Prop :=
  Forall (fun f => revision_of (name f) <> NaN) l.

(** * Properties *)

(** ** Sorting *)

Lemma sort_insert_perm {A} (cmp : A -> A -> Z) (x : A) (l : list A) :
  sort_insert cmp x l ≡ₚ x :: l.
Proof.
  induction l as [|y r IH]; simpl; [done|].
  destruct (0 <? cmp x y); [|done].
  rewrite IH. apply Permutation_swap.
Qed.

Lemma array_sort_perm {A} (cmp : A -> A -> Z) (l : list A) :
  array_sort cmp l ≡ₚ l.
Proof.
  induction l as [|x r IH]; simpl; [done|].
  by rewrite sort_insert_perm, IH.
Qed.

Section sorted.
Context {A : Type} (cmp : A -> A -> Z).
Context (P : A -> Prop) (le : A -> A -> Prop).
Hypothesis cmp_le : forall x y, P x -> P y -> cmp x y <= 0 -> le x y.
Hypothesis cmp_gt : forall x y, P x -> P y -> 0 < cmp x y -> le y x.
Hypothesis le_trans : forall x y z, P x -> P y -> P z -> le x y -> le y z -> le x z.

Lemma sort_insert_sorted x l :
  P x -> Forall P l -> StronglySorted le l ->
  StronglySorted le (sort_insert cmp x l).
Proof.
  intros Px Pl Hs. induction Hs as [|y r Hs IH Hy]; simpl.
  - repeat constructor.
  - inversion Pl as [|? ? Py Pr]; subst.
    destruct (0 <? cmp x y) eqn:E.
    + apply Z.ltb_lt in E. constructor; [by apply IH|].
      rewrite sort_insert_perm. constructor; [by apply cmp_gt | done].
    + apply Z.ltb_ge in E. constructor; [by constructor|].
      assert (Hxy : le x y) by by apply cmp_le.
      constructor; [done|].
      rewrite Forall_forall in Hy, Pr |- *. intros z Hz.
      apply (le_trans x y z); auto.
Qed.

Lemma array_sort_sorted l :
  Forall P l -> StronglySorted le (array_sort cmp l).
Proof.
  induction 1 as [|x r Px Pr IH]; simpl; [constructor|].
  apply sort_insert_sorted; [done| |done].
  by rewrite array_sort_perm.
Qed.
End sorted.

(** ** Catalog *)

Lemma load_files_ok env l p :
  (forall f, f ∈ l -> require env (JS.path_join (migrationsDir env) f) <> RequireThrows) ->
  Proc.map_list (load_file env) l p = (Value (file_record env <$> l), p).
Proof.
  revert p. induction l as [|f r IH]; intros p H; simpl; [done|].
  assert (Hf := H f (list_elem_of_here _ _)).
  unfold Proc.bind at 1. unfold load_file at 1, file_record at 1.
  destruct (require env (JS.path_join (migrationsDir env) f)) eqn:E;
    [done| |]; simpl; unfold Proc.bind;
    rewrite IH by (intros g Hg; apply H; by right); done.
Qed.

Lemma load_catalog_ok env rollback p :
  requirable env ->
  load_catalog env rollback p =
    (Value (array_sort (compare_revision rollback) (file_record env <$> discovered env)), p).
Proof.
  intros H. unfold load_catalog, mbind, proc_bind, Proc.bind.
  by rewrite load_files_ok.
Qed.

Lemma compare_revision_up a b x y :
  revision_of (name a) = Num x -> revision_of (name b) = Num y ->
  compare_revision false a b = (if x <? y then -1 else if y <? x then 1 else 0).
Proof. intros Ha Hb. unfold compare_revision. by rewrite Ha, Hb. Qed.

Lemma compare_revision_down a b x y :
  revision_of (name a) = Num x -> revision_of (name b) = Num y ->
  compare_revision true a b = (if x <? y then 1 else if y <? x then -1 else 0).
Proof. intros Ha Hb. unfold compare_revision. by rewrite Ha, Hb. Qed.

Lemma sorted_by_revision (rollback : bool) (l : list AutoMigrationFile) :
  Forall (fun a => revision_of (name a) <> NaN) l ->
  StronglySorted (if rollback then descending else ascending)
    (array_sort (compare_revision rollback) l).
Proof.
  intros Hl.
  apply (array_sort_sorted _ (fun a => revision_of (name a) <> NaN)); [| | |done].
  - intros a b Ha Hb.
    destruct (revision_of (name a)) as [|x] eqn:Ea; [done|].
    destruct (revision_of (name b)) as [|y] eqn:Eb; [done|].
    destruct rollback.
    + rewrite (compare_revision_down a b x y) by done.
      unfold descending. rewrite Ea, Eb.
      destruct (Z.ltb_spec x y); [lia|]. destruct (Z.ltb_spec y x); lia.
    + rewrite (compare_revision_up a b x y) by done.
      unfold ascending. rewrite Ea, Eb.
      destruct (Z.ltb_spec x y); [lia|]. destruct (Z.ltb_spec y x); lia.
  - intros a b Ha Hb.
    destruct (revision_of (name a)) as [|x] eqn:Ea; [done|].
    destruct (revision_of (name b)) as [|y] eqn:Eb; [done|].
    destruct rollback.
    + rewrite (compare_revision_down a b x y) by done.
      unfold descending. rewrite Ea, Eb.
      destruct (Z.ltb_spec x y); [lia|]. destruct (Z.ltb_spec y x); lia.
    + rewrite (compare_revision_up a b x y) by done.
      unfold ascending. rewrite Ea, Eb.
      destruct (Z.ltb_spec x y); [lia|]. destruct (Z.ltb_spec y x); lia.
  - intros a b c Ha Hb Hc.
    destruct rollback; unfold descending, ascending;
      destruct (revision_of (name a)), (revision_of (name b)),
        (revision_of (name c)); try done; lia.
Qed.

Lemma file_record_names env (l : list string) : name <$> (file_record env <$> l) = l.
Proof. induction l as [|f r IH]; csimpl; [done|]. by rewrite IH. Qed.


Lemma sample_discovered :
  discovered Sample.env = ["20-name.js"; "10-name.js"; "40-name.js"; "30-name.js"].
Proof. reflexivity. Qed.


(** ** Range resolution *)

Lemma find_revision_some files rev e :
  find_revision files rev = Some e ->
  e ∈ files /\
  exists m, migration e = Some m /\ rev = Given (Num (info_revision m)).
Proof.
  unfold find_revision. intros H. apply find_some in H as [Hin Hp].
  split; [by apply list_elem_of_In|].
  destruct (migration e) as [m|]; [|done]. exists m. split; [done|].
  destruct rev as [| |[|r]]; try done. simpl in Hp.
  apply Z.eqb_eq in Hp. by subst.
Qed.


Lemma endpoint_falsy v : JS.truthy JS.truthy_str v = false -> endpoint v = None.
Proof. destruct v as [| |s]; simpl; try done. by intros ->. Qed.

Lemma select_unbounded r l :
  endpoint (to r) = None -> endpoint (from r) = None -> Runner.select r l = l.
Proof. unfold Runner.select. by intros -> ->. Qed.

Lemma truthy_nonzero a : a <> 0 -> JS.truthy JS.truthy_num (Given (Num a)) = true.
Proof. intros H. simpl. by destruct (Z.eqb_spec a 0). Qed.

(** C2 (the claim fails): [toRev = 0] and [fromRev = 5] on a forward run do
    not agree with the direction, yet [from] becomes the name of the
    revision-5 record: the zero selector does not count as present and
    [fromRev] is resolved alone. *)
Lemma zero_toRev_resolves_from :
  ~ consistent false 0 5 /\
  resolve Sample.from_zero false
    (with_toRev (Given (Num 0)) (with_fromRev (Given (Num 5)) Sample.plain))
  = {| to := Undefined; from := Given "5-next.js" |} /\
  endpoint (from (resolve Sample.from_zero false
                    (with_toRev (Given (Num 0)) (with_fromRev (Given (Num 5)) Sample.plain))))
  = Some "5-next.js".
Proof. split; [unfold consistent; lia|]. split; reflexivity. Qed.

(** C2 (amended): with both [toRev] and [fromRev] supplied and different from
    0 (which is what the resolver's test accepts) and no name selector, an
    endpoint receives a concrete name only if the pair agrees with the
    direction; otherwise both endpoints stay unresolved and the runner
    selects the whole list. *)
Theorem resolve_both_revisions files rollback options (a b : Z) :
  opt_toRev options = Given (Num a) ->
  opt_fromRev options = Given (Num b) ->
  a <> 0 -> b <> 0 ->
  JS.truthy JS.truthy_str (opt_to options) = false ->
  JS.truthy JS.truthy_str (opt_from options) = false ->
  let r := resolve files rollback options in
  (endpoint (to r) <> None \/ endpoint (from r) <> None -> consistent rollback a b) /\
  (~ consistent rollback a b ->
   r = unchanged options /\
   endpoint (to r) = None /\ endpoint (from r) = None /\
   forall l, Runner.select r l = l) /\
  (consistent rollback a b ->
   r = match find_revision files (Given (Num a)), find_revision files (Given (Num b)) with
       | Some t, Some f => {| to := Given (name t); from := Given (name f) |}
       | _, _ => unchanged options
       end).
Proof.
  intros Ha Hb Na Nb Hto Hfrom r.
  assert (Hr : r = if (a <? b) && rollback || (b <? a) && negb rollback
                   then match find_revision files (Given (Num a)),
                              find_revision files (Given (Num b)) with
                        | Some t, Some f => {| to := Given (name t); from := Given (name f) |}
                        | _, _ => unchanged options
                        end
                   else unchanged options).
  { subst r. unfold resolve. rewrite Ha, Hb, Hto, Hfrom.
    rewrite !truthy_nonzero by done. simpl.
    destruct ((a <? b) && rollback || (b <? a) && negb rollback); [|done].
    by destruct (find_revision files (Given (Num a))),
               (find_revision files (Given (Num b))). }
  assert (Hdec : consistent rollback a b <->
                 (a <? b) && rollback || (b <? a) && negb rollback = true).
  { unfold consistent. destruct rollback; simpl;
      rewrite ?andb_true_r, ?andb_false_r, ?orb_false_r; simpl.
    - symmetry. apply Z.ltb_lt.
    - rewrite Z.ltb_lt. lia. }
  assert (Hun : endpoint (to (unchanged options)) = None /\
                endpoint (from (unchanged options)) = None).
  { split; by apply endpoint_falsy. }
  destruct ((a <? b) && rollback || (b <? a) && negb rollback).
  - split; [intros _; by apply Hdec|].
    split; [intros H; destruct H; by apply Hdec|]. by intros _.
  - assert (Hno : ~ consistent rollback a b) by (intros H; by apply Hdec in H).
    rewrite Hr. split; [intros [H|H]; by destruct Hun|].
    split; [|done]. intros _. destruct Hun as [H1 H2].
    repeat split; try done. intros l. by apply select_unbounded.
Qed.

Lemma resolve_both_revisions_witness :
  let r := resolve Sample.catalog false
             (with_toRev (Given (Num 10)) (with_fromRev (Given (Num 40)) Sample.plain)) in
  r = {| to := Undefined; from := Undefined |} /\
  endpoint (to r) = None /\ endpoint (from r) = None /\
  forall l, Runner.select r l = l.
Proof.
  apply (resolve_both_revisions Sample.catalog false
           (with_toRev (Given (Num 10)) (with_fromRev (Given (Num 40)) Sample.plain))
           10 40); try reflexivity; try lia.
  unfold consistent. lia.
Defined.

(** C6 (the claim fails): [--to ""] is a name selector that is supplied, and
    with [--toRev 30] the revision wins: the empty string is falsy, rule 2
    applies and [to] becomes the name of the revision-30 record. *)
Lemma empty_name_yields_to_revision :
  resolve Sample.catalog false
    {| opt_to := Given ""; opt_from := Undefined;
       opt_toRev := Given (Num 30); opt_fromRev := Undefined;
       opt_rollback := false; opt_pos := Num 0;
       opt_no_transaction := false; opt_list := false; opt_help := false |}
  = {| to := Given "30-name.js"; from := Undefined |}.
Proof. reflexivity. Qed.

(** C6 (amended): a non-empty name supplied for either endpoint wins over
    every revision selector: both names are handed on as they came,
    whatever [toRev] and [fromRev] hold. *)
Theorem name_selector_precedence files rollback options (n : string) :
  n <> "" ->
  opt_to options = Given n \/ opt_from options = Given n ->
  resolve files rollback options = unchanged options /\
  forall toRev fromRev,
    resolve files rollback (with_toRev toRev (with_fromRev fromRev options))
    = resolve files rollback options.
Proof.
  intros Hn H.
  assert (Ht : JS.truthy_str n = true) by by destruct n.
  assert (Hgen : forall o, opt_to o = opt_to options -> opt_from o = opt_from options ->
                           resolve files rollback o = unchanged options).
  { intros o Eto Efrom. unfold resolve, unchanged. rewrite Eto, Efrom.
    destruct H as [-> | ->]; simpl; rewrite Ht; simpl;
      rewrite ?andb_false_r; done. }
  split; [by apply Hgen|].
  intros toRev fromRev. by rewrite !Hgen.
Qed.

Lemma name_selector_precedence_witness :
  resolve Sample.catalog false
    {| opt_to := Given "20-name.js"; opt_from := Undefined;
       opt_toRev := Given (Num 30); opt_fromRev := Given (Num 10);
       opt_rollback := false; opt_pos := Num 0;
       opt_no_transaction := false; opt_list := false; opt_help := false |}
  = {| to := Given "20-name.js"; from := Undefined |}.
Proof.
  refine (proj1 (name_selector_precedence Sample.catalog false
           {| opt_to := Given "20-name.js"; opt_from := Undefined;
              opt_toRev := Given (Num 30); opt_fromRev := Given (Num 10);
              opt_rollback := false; opt_pos := Num 0;
              opt_no_transaction := false; opt_list := false; opt_help := false |}
           "20-name.js" _ _)); [discriminate | left; reflexivity].
Defined.



Lemma sample_catalog :
  name <$> Sample.catalog = ["10-name.js"; "20-name.js"; "30-name.js"; "40-name.js"].
Proof. reflexivity. Qed.


(** C10: a revision selector equal to 0 is treated as absent. The result
    is the one obtained without the selector; the endpoint of a zero
    selector is never replaced by a record's name, even when a record has
    revision 0; and both names come back as they were passed whenever the
    other revision selector is absent or zero as well. *)
Theorem zero_revision_is_absent files rollback options :
  resolve files rollback (with_toRev (Given (Num 0)) options)
    = resolve files rollback (with_toRev Undefined options) /\
  resolve files rollback (with_fromRev (Given (Num 0)) options)
    = resolve files rollback (with_fromRev Undefined options) /\
  to (resolve files rollback (with_toRev (Given (Num 0)) options)) = opt_to options /\
  from (resolve files rollback (with_fromRev (Given (Num 0)) options)) = opt_from options /\
  (forall other, JS.truthy JS.truthy_num other = false ->
     resolve files rollback (with_toRev (Given (Num 0)) (with_fromRev other options))
       = unchanged options /\
     resolve files rollback (with_fromRev (Given (Num 0)) (with_toRev other options))
       = unchanged options).
Proof.
  repeat split.
  - unfold resolve. simpl. by rewrite !andb_false_r.
  - unfold resolve. simpl. by rewrite !andb_false_r.
  - unfold resolve. simpl. rewrite !andb_false_r. simpl.
    destruct (negb (JS.truthy JS.truthy_str (opt_to options)) && true
              && negb (JS.truthy JS.truthy_str (opt_from options))
              && JS.truthy JS.truthy_num (opt_fromRev options)); [|done].
    by destruct (find_revision files (opt_fromRev options)).
  - unfold resolve. simpl. rewrite !andb_false_r. simpl.
    destruct (negb (JS.truthy JS.truthy_str (opt_to options))
              && JS.truthy JS.truthy_num (opt_toRev options)
              && negb (JS.truthy JS.truthy_str (opt_from options)) && true); [|done].
    by destruct (find_revision files (opt_toRev options)).
  - unfold resolve. simpl. rewrite H. by rewrite !andb_false_r.
  - unfold resolve. simpl. rewrite H. by rewrite !andb_false_r.
Qed.

(** ** The process monad *)

Lemma printed_nil p : printed p [] = p.
Proof. destruct p. unfold printed. simpl. by rewrite app_nil_r. Qed.

Lemma printed_app p a b : printed (printed p a) b = printed p (a ++ b)%list.
Proof. unfold printed. simpl. by rewrite app_assoc. Qed.

Lemma bind_value {A B} (m : Proc A) (k : A -> Proc B) p a p' :
  m p = (Value a, p') -> Proc.bind m k p = k a p'.
Proof. unfold Proc.bind. by intros ->. Qed.

Lemma bind_thrown {A B} (m : Proc A) (k : A -> Proc B) p e p' :
  m p = (Thrown e, p') -> Proc.bind m k p = (Thrown e, p').
Proof. unfold Proc.bind. by intros ->. Qed.

Lemma print_names (l : list AutoMigrationFile) p :
  exists out,
    Proc.map_list (fun file => Proc.print (Line (name file))) l p
    = (Value ((fun _ => tt) <$> l), printed p out).
Proof.
  revert p. induction l as [|f r IH]; intros p.
  - exists []. by rewrite printed_nil.
  - destruct (IH (printed p [Line (name f)])) as [out Hout].
    exists ([Line (name f)] ++ out)%list. simpl.
    erewrite bind_value by reflexivity.
    erewrite bind_value by exact Hout.
    by rewrite printed_app.
Qed.

(** ** getMigrator *)

Lemma prepare_some mo f m p :
  migration f = Some m ->
  exists out, prepare mo f p = (Value (configure mo f m), printed p out).
Proof.
  intros Hm. unfold prepare. rewrite Hm. unfold mbind, proc_bind.
  destruct (JS.gt (step mo) (Num 0)).
  - exists [Line "Set position to"]. by erewrite bind_value by reflexivity.
  - exists []. erewrite bind_value by reflexivity. by rewrite printed_nil.
Qed.

Lemma getMigrator_ok files mo p :
  Forall (fun f => is_Some (migration f)) files ->
  exists out, getMigrator files mo p = (Value (configured mo files), printed p out).
Proof.
  unfold getMigrator, configured. intros H. revert p.
  induction H as [|f r [m Hm] Hr IH]; intros p.
  - exists []. by rewrite printed_nil.
  - destruct (prepare_some mo f m p Hm) as [o1 H1].
    destruct (IH (printed p o1)) as [o2 H2].
    exists (o1 ++ o2)%list. simpl.
    erewrite bind_value by exact H1.
    erewrite bind_value by exact H2.
    rewrite Hm. simpl. by rewrite printed_app.
Qed.

Lemma getMigrator_throw files mo p :
  Exists (fun f => migration f = None) files ->
  exists e out, getMigrator files mo p = (Thrown e, printed p out).
Proof.
  unfold getMigrator. revert p.
  induction files as [|f r IH]; intros p H; [by inversion H|].
  destruct (migration f) as [m|] eqn:Hm.
  - assert (Hr : Exists (fun f => migration f = None) r).
    { inversion H as [? ? Hf|]; [congruence | done]. }
    destruct (prepare_some mo f m p Hm) as [o1 H1].
    destruct (IH (printed p o1) Hr) as (e & o2 & H2).
    exists e, (o1 ++ o2)%list. simpl.
    erewrite bind_value by exact H1.
    erewrite bind_thrown by exact H2.
    by rewrite printed_app.
  - exists (UnableToLoad (fullPath f)), []. simpl.
    erewrite bind_thrown; [done|].
    unfold prepare. rewrite Hm. by rewrite printed_nil.
Qed.

Lemma configured_names mo files :
  Forall (fun f => is_Some (migration f)) files ->
  migration_name <$> configured mo files = name <$> files.
Proof.
  unfold configured. induction 1 as [|f r [m Hm] Hr IH]; [done|].
  csimpl. rewrite Hm. csimpl. by rewrite IH.
Qed.

(** Whatever the step, a positive one is written on every record. *)
Lemma configured_positions mo files :
  JS.gt (step mo) (Num 0) = true ->
  Forall (fun m => pos m = step mo) (configured mo files).
Proof.
  intros Hs. unfold configured. induction files as [|f r IH]; [constructor|].
  csimpl. destruct (migration f) as [m|]; csimpl; [|done].
  constructor; [|done]. unfold configure. cbn [pos]. by rewrite Hs.
Qed.

(** ** Loading *)

Lemma load_files_throw env l p :
  Exists (fun f => require env (JS.path_join (migrationsDir env) f) = RequireThrows) l ->
  exists e, Proc.map_list (load_file env) l p = (Thrown e, p).
Proof.
  induction l as [|f r IH]; intros H; [by inversion H|].
  destruct (require env (JS.path_join (migrationsDir env) f)) eqn:E.
  - eexists. simpl. erewrite bind_thrown; [done|].
    unfold load_file. by rewrite E.
  - assert (Hr : Exists (fun f => require env (JS.path_join (migrationsDir env) f)
                                  = RequireThrows) r).
    { inversion H as [? ? Hf|]; [congruence | done]. }
    destruct (IH Hr) as [e He]. exists e. simpl.
    erewrite bind_value by (unfold load_file; rewrite E; reflexivity).
    by erewrite bind_thrown by exact He.
  - assert (Hr : Exists (fun f => require env (JS.path_join (migrationsDir env) f)
                                  = RequireThrows) r).
    { inversion H as [? ? Hf|]; [congruence | done]. }
    destruct (IH Hr) as [e He]. exists e. simpl.
    erewrite bind_value by (unfold load_file; rewrite E; reflexivity).
    by erewrite bind_thrown by exact He.
Qed.

Lemma loads_requirable env : loads env = true -> requirable env.
Proof.
  unfold loads, requirable. intros H f Hf.
  apply andb_true_iff in H as [_ H]. rewrite forallb_forall in H.
  specialize (H f). rewrite <- list_elem_of_In in H. specialize (H Hf).
  by destruct (require env (JS.path_join (migrationsDir env) f)).
Qed.

Lemma loads_catalog env options :
  loads env = true ->
  Forall (fun f => is_Some (migration f)) (catalog_of env options).
Proof.
  unfold loads, catalog_of. intros H.
  apply andb_true_iff in H as [_ H]. rewrite forallb_forall in H.
  rewrite array_sort_perm. rewrite Forall_fmap, Forall_forall. intros f Hf.
  apply list_elem_of_In, H in Hf. unfold file_record. simpl.
  by destruct (require env (JS.path_join (migrationsDir env) f)).
Qed.

(** ** Main up to the construction of the migrator *)

Lemma forallb_false_Exists {A} (f : A -> bool) (l : list A) :
  forallb f l = false -> Exists (fun x => f x = false) l.
Proof.
  induction l as [|x r IH]; simpl; [done|].
  destruct (f x) eqn:E; simpl; intros H.
  - right. by apply IH.
  - by left.
Qed.

Lemma Main_missing_models env options p :
  existsSync env (modelsDir env) = false ->
  Main env options p
  = (Value tt,
     printed p [Line "Can't find models directory. Use `sequelize init` to create it"]).
Proof. intros H. unfold Main. by rewrite H. Qed.

Lemma Main_missing_migrations env options p :
  existsSync env (modelsDir env) = true ->
  existsSync env (migrationsDir env) = false ->
  Main env options p
  = (Value tt,
     printed p [Line "Can't find migrations directory. Use `sequelize init` to create it"]).
Proof. intros H1 H2. unfold Main. by rewrite H1, H2. Qed.

Lemma Main_help env options p :
  directories_exist env = true ->
  opt_help options = true ->
  Main env options p
  = (Exited 0, printed p [Line "Simple sequelize migration execution tool"]).
Proof.
  unfold directories_exist. intros [H1 H2]%andb_true_iff Hh.
  unfold Main. by rewrite H1, H2, Hh.
Qed.

Lemma Main_loaded env options p :
  directories_exist env = true ->
  opt_help options = false ->
  loads env = true ->
  exists out,
    Main env options p
    = (if opt_list options then list_migrations (migrator_of env options)
       else run_migrations env options (catalog_of env options) (migrator_of env options))
        (printed p out).
Proof.
  unfold directories_exist. intros [H1 H2]%andb_true_iff Hh Hl.
  pose proof (loads_requirable env Hl) as Hreq.
  pose proof (loads_catalog env options Hl) as Hsome.
  apply andb_true_iff in Hl as [Hm _].
  destruct (print_names (catalog_of env options) (printed p [Line "Migrations found:"]))
    as [o1 E1].
  destruct (getMigrator_ok (catalog_of env options) (migration_options options)
              (printed (printed p [Line "Migrations found:"]) o1) Hsome) as [o2 E2].
  eexists.
  unfold Main. rewrite H1, H2, Hh, Hm. cbn [negb].
  unfold mbind, proc_bind.
  erewrite bind_value by reflexivity.
  erewrite bind_value by (by apply load_catalog_ok).
  fold (catalog_of env options).
  erewrite bind_value by reflexivity.
  erewrite bind_value by exact E1.
  erewrite bind_value by exact E2.
  rewrite !printed_app. reflexivity.
Qed.

Lemma Main_not_loaded env options p :
  directories_exist env = true ->
  opt_help options = false ->
  loads env = false ->
  exists e out, Main env options p = (Thrown e, printed p out).
Proof.
  unfold directories_exist. intros [H1 H2]%andb_true_iff Hh Hl.
  unfold Main. rewrite H1, H2, Hh. cbn [negb].
  unfold mbind, proc_bind.
  destruct (require_models env) eqn:Hm.
  2:{ exists (ModuleNotLoaded (modelsDir env)), [].
      erewrite bind_thrown by reflexivity. by rewrite printed_nil. }
  erewrite bind_value by reflexivity.
  destruct (existsb (fun f => match require env (JS.path_join (migrationsDir env) f) with
                              | RequireThrows => true
                              | _ => false
                              end) (discovered env)) eqn:Ex.
  - apply existsb_exists in Ex as (f & Hf & Hthrow).
    assert (Hex : Exists (fun f => require env (JS.path_join (migrationsDir env) f)
                                   = RequireThrows) (discovered env)).
    { apply Exists_exists. exists f. split; [by apply list_elem_of_In|].
      by destruct (require env (JS.path_join (migrationsDir env) f)). }
    destruct (load_files_throw env _ p Hex) as [e He].
    exists e, []. rewrite printed_nil.
    erewrite bind_thrown; [done|].
    unfold load_catalog, mbind, proc_bind. by erewrite bind_thrown by exact He.
  - assert (Hreq : requirable env).
    { intros f Hf Hthrow.
      assert (Hc : existsb (fun f => match require env (JS.path_join (migrationsDir env) f) with
                                     | RequireThrows => true
                                     | _ => false
                                     end) (discovered env) = true); [|congruence].
      apply existsb_exists. exists f. split; [by apply list_elem_of_In|].
      by rewrite Hthrow. }
    erewrite bind_value by (by apply load_catalog_ok).
    fold (catalog_of env options).
    erewrite bind_value by reflexivity.
    destruct (print_names (catalog_of env options) (printed p [Line "Migrations found:"]))
      as [o1 E1].
    erewrite bind_value by exact E1.
    assert (Hnone : Exists (fun f => migration f = None) (catalog_of env options)).
    { unfold loads in Hl. rewrite Hm in Hl. simpl in Hl.
      apply forallb_false_Exists in Hl as Ef.
      unfold catalog_of. rewrite array_sort_perm, Exists_fmap.
      apply Exists_exists in Ef as (f & Hf & Hbad). apply Exists_exists.
      exists f. split; [done|]. unfold file_record. simpl.
      specialize (Hreq f Hf).
      by destruct (require env (JS.path_join (migrationsDir env) f)). }
    destruct (getMigrator_throw (catalog_of env options) (migration_options options)
                (printed (printed p [Line "Migrations found:"]) o1) Hnone)
      as (e & o2 & E2).
    erewrite bind_thrown by exact E2.
    rewrite !printed_app. by eexists _, _.
Qed.

(** ** The runner *)

Lemma execute_cons_ok env d m r p :
  script_ok env d m = true ->
  exists p1,
    tracking p1 = marked d [migration_name m] (tracking p) /\
    calls p1 = (calls p ++ [call_of d m])%list /\
    report p1 = (report p ++ [entry_of d (Runner.done d) m])%list /\
    console p1 = console p /\
    Runner.execute env d (m :: r) p
    = match Runner.execute env d r p1 with
      | (Value rest, p') => (Value (migration_name m :: rest), p')
      | (Thrown e, p') => (Thrown e, p')
      | (Exited c, p') => (Exited c, p')
      end.
Proof.
  intros Hok.
  exists {| tracking := match d with
                        | Up => {[ migration_name m ]} ∪ tracking p
                        | Down => tracking p ∖ {[ migration_name m ]}
                        end;
            console := console p;
            calls := (calls p ++ [call_of d m])%list;
            report := (report p ++ [entry_of d (Runner.done d) m])%list |}.
  repeat split.
  - simpl. unfold marked. destruct d; set_solver.
  - cbn [Runner.execute]. unfold mbind, proc_bind.
    unfold Proc.bind at 1. unfold Executor.enter, mbind, proc_bind.
    unfold Proc.bind at 1. unfold Proc.record_call, Proc.ret. cbn [fst snd].
    unfold script_ok in Hok.
    destruct d; rewrite Hok; unfold Proc.bind, Runner.mark, Executor.markApplied,
      Executor.markReverted, mbind, proc_bind, Proc.bind, Proc.get_tracking,
      Proc.set_tracking, Proc.record_entry, Proc.ret; simpl;
      by destruct (Runner.execute env _ r _) as [[]].
Qed.

Lemma execute_cons_fail env d m r p :
  script_ok env d m = false ->
  exists p1,
    Runner.execute env d (m :: r) p = (Thrown (ExecutionError (migration_name m)), p1) /\
    tracking p1 = tracking p /\
    calls p1 = (calls p ++ [call_of d m])%list /\
    report p1 = (report p ++ [entry_of d errored m])%list /\
    console p1 = console p.
Proof.
  intros Hok.
  exists {| tracking := tracking p; console := console p;
            calls := (calls p ++ [call_of d m])%list;
            report := (report p ++ [entry_of d errored m])%list |}.
  split; [|done].
  cbn [Runner.execute]. unfold mbind, proc_bind.
  unfold Proc.bind at 1. unfold Executor.enter, mbind, proc_bind.
  unfold Proc.bind at 1. unfold Proc.record_call, Proc.ret. cbn [fst snd].
  unfold script_ok in Hok. destruct d; rewrite Hok; reflexivity.
Qed.

Lemma execute_ok env d l p :
  Forall (fun m => script_ok env d m = true) l ->
  exists p',
    Runner.execute env d l p = (Value (migration_name <$> l), p') /\
    tracking p' = marked d (migration_name <$> l) (tracking p) /\
    calls p' = (calls p ++ (call_of d <$> l))%list /\
    report p' = (report p ++ (entry_of d (Runner.done d) <$> l))%list /\
    console p' = console p.
Proof.
  intros H. revert p. induction H as [|m r Hm Hr IH]; intros p.
  - exists p. csimpl. rewrite !app_nil_r. repeat split.
    unfold marked. destruct d; set_solver.
  - destruct (execute_cons_ok env d m r p Hm) as (p1 & T1 & C1 & R1 & O1 & E1).
    destruct (IH p1) as (p' & E & T & C & R & O).
    exists p'. rewrite E1, E. csimpl. repeat split.
    + rewrite T, T1. unfold marked. destruct d; set_solver.
    + rewrite C, C1. by rewrite <- app_assoc.
    + rewrite R, R1. by rewrite <- app_assoc.
    + by rewrite O, O1.
Qed.

Lemma execute_thrown env d l p :
  Exists (fun m => script_ok env d m = false) l ->
  exists n p',
    Runner.execute env d l p = (Thrown (ExecutionError n), p') /\
    console p' = console p /\
    {| entry_name := n; entry_direction := d; entry_outcome := errored |} ∈ report p'.
Proof.
  revert p. induction l as [|m r IH]; intros p H; [by inversion H|].
  destruct (script_ok env d m) eqn:Hm.
  - assert (Hr : Exists (fun m => script_ok env d m = false) r).
    { inversion H as [? ? Hf|]; [congruence | done]. }
    destruct (execute_cons_ok env d m r p Hm) as (p1 & T1 & C1 & R1 & O1 & E1).
    destruct (IH p1 Hr) as (n & p' & E & O & R).
    exists n, p'. rewrite E1, E. repeat split; [congruence | done].
  - destruct (execute_cons_fail env d m r p Hm) as (p1 & E1 & T1 & C1 & R1 & O1).
    exists (migration_name m), p1. repeat split; [done..|].
    rewrite R1. apply elem_of_app. right. by apply list_elem_of_singleton.
Qed.

(** ** The two branches of Main *)

Lemma list_migrations_spec migrator p :
  list_migrations migrator p
  = (Exited 0,
     printed p [Shown "Executed:" (tracking p);
                Shown "Pending:" (list_to_set (migration_name <$> migrator) ∖ tracking p)]).
Proof.
  unfold list_migrations, Executor.listApplied, Executor.listPending, mbind, proc_bind.
  unfold Proc.bind, Proc.get_tracking, Proc.print, Proc.exit, Proc.ret, printed.
  simpl. by rewrite <- app_assoc.
Qed.

Lemma run_branch env options files migrator :
  run_migrations env options files migrator
  = Proc.try_catch
      (Proc.print (Line "Migration Options");;
       migrations ←
         (Proc.print (Line (if opt_rollback options
                            then "Migrating down" else "Migrating up"));;
          Runner.run env migrator (resolve files (opt_rollback options) options)
            (direction options));
       Proc.print (Ran migrations);;
       Proc.exit 0)
      (fun migError => Proc.print (Failure migError);; Proc.exit 1).
Proof. unfold run_migrations, direction. by destruct (opt_rollback options). Qed.

Lemma run_migrations_ok env options files migrator p :
  let l := Runner.select (resolve files (opt_rollback options) options) migrator in
  Forall (fun m => script_ok env (direction options) m = true) l ->
  exists p',
    run_migrations env options files migrator p = (Exited 0, p') /\
    tracking p' = marked (direction options) (migration_name <$> l) (tracking p) /\
    calls p' = (calls p ++ (call_of (direction options) <$> l))%list /\
    report p' = (report p ++ (entry_of (direction options)
                                (Runner.done (direction options)) <$> l))%list /\
    (forall e, Failure e ∈ console p' -> Failure e ∈ console p).
Proof.
  intros l H. rewrite run_branch.
  destruct (execute_ok env (direction options) l
              (printed (printed p [Line "Migration Options"])
                 [Line (if opt_rollback options then "Migrating down" else "Migrating up")])
              H) as (p' & E & T & C & R & O).
  exists (printed p' [Ran (migration_name <$> l)]). split; [|repeat split].
  - unfold Proc.try_catch, mbind, proc_bind.
    erewrite bind_value by reflexivity.
    erewrite (bind_value _ _ _ (migration_name <$> l) p').
    2:{ erewrite bind_value by reflexivity. exact E. }
    by erewrite bind_value by reflexivity.
  - simpl. by rewrite T.
  - simpl. by rewrite C.
  - simpl. by rewrite R.
  - intros e. simpl. rewrite O. simpl. rewrite !elem_of_app.
    intros [[[?|Hin]|Hin]|Hin]; [done|..];
      repeat (apply elem_of_cons in Hin as [?|Hin]; [done|]);
      by apply elem_of_nil in Hin.
Qed.

Lemma run_migrations_fail env options files migrator p :
  let l := Runner.select (resolve files (opt_rollback options) options) migrator in
  Exists (fun m => script_ok env (direction options) m = false) l ->
  exists n p',
    run_migrations env options files migrator p = (Exited 1, p') /\
    Failure (ExecutionError n) ∈ console p' /\
    {| entry_name := n; entry_direction := direction options;
       entry_outcome := errored |} ∈ report p'.
Proof.
  intros l H. rewrite run_branch.
  destruct (execute_thrown env (direction options) l
              (printed (printed p [Line "Migration Options"])
                 [Line (if opt_rollback options then "Migrating down" else "Migrating up")])
              H) as (n & p' & E & O & R).
  exists n, (printed p' [Failure (ExecutionError n)]). split; [|split].
  - unfold Proc.try_catch, mbind, proc_bind.
    erewrite bind_value by reflexivity.
    erewrite (bind_thrown _ _ _ (ExecutionError n) p').
    2:{ erewrite bind_value by reflexivity. exact E. }
    by erewrite bind_value by reflexivity.
  - simpl. apply elem_of_app. right. by apply list_elem_of_singleton.
  - done.
Qed.

(** ** Whole invocations *)

Lemma invoke_main env options store :
  invoke env options store
  = match Main env options (idle store) with
    | (Thrown e, p') => (Exited 1, printed p' [Failure e])
    | r => r
    end.
Proof.
  unfold invoke, wrapper, Proc.try_catch.
  by destruct (Main env options (idle store)) as [[] ?].
Qed.

Lemma invoke_missing env options store :
  directories_exist env = false ->
  exists msg, invoke env options store = (Value tt, printed (idle store) [Line msg]).
Proof.
  unfold directories_exist. intros H. rewrite invoke_main.
  destruct (existsSync env (modelsDir env)) eqn:H1.
  - simpl in H. eexists. by rewrite Main_missing_migrations.
  - eexists. by rewrite Main_missing_models.
Qed.

Lemma invoke_not_loaded env options store :
  directories_exist env = true -> opt_help options = false -> loads env = false ->
  exists e out, invoke env options store = (Exited 1, printed (idle store) (out ++ [Failure e])).
Proof.
  intros Hd Hh Hl. rewrite invoke_main.
  destruct (Main_not_loaded env options (idle store) Hd Hh Hl) as (e & out & ->).
  exists e, out. by rewrite printed_app.
Qed.

Lemma invoke_loaded env options store :
  directories_exist env = true -> opt_help options = false -> loads env = true ->
  exists out,
    invoke env options store
    = (if opt_list options then list_migrations (migrator_of env options)
       else run_migrations env options (catalog_of env options) (migrator_of env options))
        (printed (idle store) out).
Proof.
  intros Hd Hh Hl. rewrite invoke_main.
  destruct (Main_loaded env options (idle store) Hd Hh Hl) as (out & ->).
  exists out. destruct (opt_list options).
  - by rewrite list_migrations_spec.
  - destruct (decide (Forall (fun m => script_ok env (direction options) m = true)
                        (selected env options))) as [Hok|Hbad].
    + destruct (run_migrations_ok env options (catalog_of env options)
                  (migrator_of env options) (printed (idle store) out) Hok)
        as (p' & -> & _). done.
    + apply not_Forall_Exists in Hbad; [|apply _].
      assert (Hex : Exists (fun m => script_ok env (direction options) m = false)
                      (selected env options)).
      { eapply Exists_impl; [exact Hbad|]. simpl. intros m Hm.
        by destruct (script_ok env (direction options) m). }
      destruct (run_migrations_fail env options (catalog_of env options)
                  (migrator_of env options) (printed (idle store) out) Hex)
        as (n & p' & -> & _). done.
Qed.

Lemma resolve_unselected files rollback options :
  unselected options -> resolve files rollback options = unchanged options.
Proof.
  intros (Hto & Hfrom & HtoRev & HfromRev).
  unfold resolve. rewrite Hto, Hfrom, HtoRev, HfromRev. done.
Qed.

Lemma selected_unselected env options :
  unselected options -> selected env options = migrator_of env options.
Proof.
  intros H. unfold selected. rewrite resolve_unselected by done.
  destruct H as (Hto & Hfrom & _).
  apply select_unbounded; by apply endpoint_falsy.
Qed.

Lemma migrator_names env options :
  loads env = true ->
  migration_name <$> migrator_of env options ≡ₚ discovered env.
Proof.
  intros Hl. unfold migrator_of.
  rewrite configured_names by by apply loads_catalog.
  unfold catalog_of. by rewrite array_sort_perm, file_record_names.
Qed.

Lemma migrator_name_set env options :
  loads env = true ->
  list_to_set (migration_name <$> migrator_of env options)
  = (list_to_set (discovered env) : gset string).
Proof.
  intros Hl. apply set_eq. intros x. rewrite !elem_of_list_to_set.
  by rewrite (migrator_names env options Hl).
Qed.

Lemma invoke_success env options store :
  directories_exist env = true -> opt_help options = false -> loads env = true ->
  opt_list options = false ->
  Forall (fun m => script_ok env (direction options) m = true) (selected env options) ->
  exists p',
    invoke env options store = (Exited 0, p') /\
    tracking p' = marked (direction options)
                    (migration_name <$> selected env options) store /\
    calls p' = call_of (direction options) <$> selected env options /\
    report p' = entry_of (direction options) (Runner.done (direction options))
                  <$> selected env options.
Proof.
  intros Hd Hh Hl Hlist Hok.
  destruct (invoke_loaded env options store Hd Hh Hl) as (out & ->).
  rewrite Hlist.
  destruct (run_migrations_ok env options (catalog_of env options)
              (migrator_of env options) (printed (idle store) out) Hok)
    as (p' & -> & T & C & R & O).
  exists p'. by repeat split.
Qed.

Lemma invoke_failure env options store :
  directories_exist env = true -> opt_help options = false -> loads env = true ->
  opt_list options = false ->
  Exists (fun m => script_ok env (direction options) m = false) (selected env options) ->
  exists n p',
    invoke env options store = (Exited 1, p') /\
    Failure (ExecutionError n) ∈ console p' /\
    {| entry_name := n; entry_direction := direction options;
       entry_outcome := errored |} ∈ report p'.
Proof.
  intros Hd Hh Hl Hlist Hbad.
  destruct (invoke_loaded env options store Hd Hh Hl) as (out & ->).
  rewrite Hlist.
  destruct (run_migrations_fail env options (catalog_of env options)
              (migrator_of env options) (printed (idle store) out) Hbad)
    as (n & p' & -> & O & R).
  by exists n, p'.
Qed.

Lemma invoke_list env options store :
  directories_exist env = true -> opt_help options = false -> loads env = true ->
  opt_list options = true ->
  exists out,
    invoke env options store
    = (Exited 0,
       printed (idle store)
         (out ++ [Shown "Executed:" store;
                  Shown "Pending:" (list_to_set (discovered env) ∖ store)])).
Proof.
  intros Hd Hh Hl Hlist.
  destruct (invoke_loaded env options store Hd Hh Hl) as (out & ->).
  rewrite Hlist, list_migrations_spec, printed_app. simpl.
  rewrite migrator_name_set by done. by exists out.
Qed.

(** ** Start position *)

(** C3 (the code at [--pos 3] with four migrations): getMigrator writes the
    position on every record, and every script is entered at step 3, not
    only the first one. *)
Theorem position_reaches_every_record :
  pos <$> migrator_of Sample.env Sample.resume = [Num 3; Num 3; Num 3; Num 3] /\
  (exists out,
     getMigrator (catalog_of Sample.env Sample.resume)
       (migration_options Sample.resume) (idle ∅)
     = (Value (migrator_of Sample.env Sample.resume), printed (idle ∅) out)) /\
  calls (snd (invoke Sample.env Sample.resume ∅))
  = [(Up, "10-name.js", Num 3); (Up, "20-name.js", Num 3);
     (Up, "30-name.js", Num 3); (Up, "40-name.js", Num 3)].
Proof.
  split; [reflexivity|]. split; [|by vm_compute].
  apply getMigrator_ok. by apply loads_catalog.
Qed.

(** ** Revisions that do not parse *)





(** ** Exit codes *)

(** C5 (the claim fails): without a models directory the script prints a
    hint and returns; the exit code is 0. *)
Lemma missing_models_exits_zero :
  existsSync Sample.no_models (modelsDir Sample.no_models) = false /\
  invoke Sample.no_models Sample.plain ∅
  = (Value tt,
     printed (idle ∅)
       [Line "Can't find models directory. Use `sequelize init` to create it"]) /\
  exit_code (fst (invoke Sample.no_models Sample.plain ∅)) = 0.
Proof.
  split; [reflexivity|].
  rewrite invoke_main, Main_missing_models by reflexivity. done.
Qed.

(** C5 (amended): the exit code is 0 when a directory is missing (a hint is
    printed and nothing runs), on [--help], on [--list] and when every
    selected script succeeds; it is 1 when loading throws or a script
    fails, and the error is printed. *)
Theorem exit_codes env options store :
  let r := invoke env options store in
  (directories_exist env = false ->
   fst r = Value tt /\ exit_code (fst r) = 0 /\
   tracking (snd r) = store /\ calls (snd r) = [] /\
   exists msg, console (snd r) = [Line msg]) /\
  (directories_exist env = true -> opt_help options = true ->
   fst r = Exited 0) /\
  (directories_exist env = true -> opt_help options = false -> loads env = false ->
   fst r = Exited 1 /\ exists e, Failure e ∈ console (snd r)) /\
  (directories_exist env = true -> opt_help options = false -> loads env = true ->
   opt_list options = true ->
   fst r = Exited 0) /\
  (directories_exist env = true -> opt_help options = false -> loads env = true ->
   opt_list options = false ->
   Forall (fun m => script_ok env (direction options) m = true) (selected env options) ->
   fst r = Exited 0) /\
  (directories_exist env = true -> opt_help options = false -> loads env = true ->
   opt_list options = false ->
   Exists (fun m => script_ok env (direction options) m = false) (selected env options) ->
   fst r = Exited 1 /\ exists e, Failure e ∈ console (snd r)).
Proof.
  intros r. subst r. repeat apply conj.
  - intros Hd. destruct (invoke_missing env options store Hd) as [msg ->].
    repeat split. by exists msg.
  - intros Hd Hh. by rewrite invoke_main, Main_help.
  - intros Hd Hh Hl.
    destruct (invoke_not_loaded env options store Hd Hh Hl) as (e & out & ->).
    split; [done|]. exists e. simpl. apply elem_of_app. right.
    by apply list_elem_of_singleton.
  - intros Hd Hh Hl Hlist.
    by destruct (invoke_list env options store Hd Hh Hl Hlist) as (out & ->).
  - intros Hd Hh Hl Hlist Hok.
    by destruct (invoke_success env options store Hd Hh Hl Hlist Hok) as (p' & -> & _).
  - intros Hd Hh Hl Hlist Hbad.
    destruct (invoke_failure env options store Hd Hh Hl Hlist Hbad)
      as (n & p' & -> & O & _).
    split; [done|]. by exists (ExecutionError n).
Qed.

Lemma exit_codes_witness :
  fst (invoke Sample.failing Sample.plain ∅) = Exited 1 /\
  exists e, Failure e ∈ console (snd (invoke Sample.failing Sample.plain ∅)).
Proof.
  apply (exit_codes Sample.failing Sample.plain ∅); try reflexivity.
  apply Exists_cons_tl, Exists_cons_hd. reflexivity.
Defined.

(** ** The tracking store holds names of the catalog *)

Lemma execute_tracking env d l p :
  tracking (snd (Runner.execute env d l p))
  ⊆ tracking p ∪ list_to_set (migration_name <$> l).
Proof.
  revert p. induction l as [|m r IH]; intros p; [set_solver|].
  destruct (script_ok env d m) eqn:Hm.
  - destruct (execute_cons_ok env d m r p Hm) as (p1 & T1 & _ & _ & _ & E1).
    rewrite E1. specialize (IH p1). unfold marked in T1.
    assert (H1 : tracking p1 ⊆ tracking p ∪ {[ migration_name m ]})
      by (rewrite T1; destruct d; set_solver).
    destruct (Runner.execute env d r p1) as [[] p']; csimpl in *; set_solver.
  - destruct (execute_cons_fail env d m r p Hm) as (p1 & E1 & T1 & _).
    rewrite E1. csimpl. set_solver.
Qed.

Lemma after_from_subseteq n (l : list AutoMigration) : Runner.after_from n l ⊆ l.
Proof.
  induction l as [|m r IH]; simpl; [done|].
  destruct (String.eqb (migration_name m) n); set_solver.
Qed.

Lemma until_to_subseteq n (l : list AutoMigration) : Runner.until_to n l ⊆ l.
Proof.
  induction l as [|m r IH]; simpl; [done|].
  destruct (String.eqb (migration_name m) n); set_solver.
Qed.

Lemma select_subseteq range (l : list AutoMigration) : Runner.select range l ⊆ l.
Proof.
  unfold Runner.select.
  destruct (endpoint (from range)), (endpoint (to range)); try done.
  - etrans; [apply until_to_subseteq | apply after_from_subseteq].
  - apply after_from_subseteq.
  - apply until_to_subseteq.
Qed.

Lemma run_migrations_tracking env options files migrator p :
  tracking (snd (run_migrations env options files migrator p))
  ⊆ tracking p ∪ list_to_set (migration_name <$> migrator).
Proof.
  rewrite run_branch.
  pose proof (execute_tracking env (direction options)
                (Runner.select (resolve files (opt_rollback options) options) migrator)
                (printed (printed p [Line "Migration Options"])
                   [Line (if opt_rollback options then "Migrating down" else "Migrating up")]))
    as H.
  pose proof (select_subseteq (resolve files (opt_rollback options) options) migrator) as Hs.
  assert (Hn : (list_to_set (migration_name <$>
                   Runner.select (resolve files (opt_rollback options) options) migrator)
                 : gset string)
               ⊆ list_to_set (migration_name <$> migrator)).
  { intros x. rewrite !elem_of_list_to_set, !list_elem_of_fmap.
    intros (m & -> & Hm). exists m. split; [done|]. by apply Hs. }
  unfold Proc.try_catch, mbind, proc_bind, Runner.run.
  unfold Proc.bind at 1. unfold Proc.print at 1.
  unfold Proc.bind at 1. unfold Proc.bind at 1. unfold Proc.print at 1.
  fold (printed p [Line "Migration Options"]).
  fold (printed (printed p [Line "Migration Options"])
          [Line (if opt_rollback options then "Migrating down" else "Migrating up")]).
  destruct (Runner.execute _ _ _ _) as [[] p']; csimpl in *; set_solver.
Qed.

(** An invocation never puts a name in the store that is not the name of
    a discovered migration: a store that starts empty stays within the
    catalog. *)
Lemma invoke_tracking env options store :
  tracking (snd (invoke env options store)) ⊆ store ∪ list_to_set (discovered env).
Proof.
  destruct (directories_exist env) eqn:Hd.
  2:{ destruct (invoke_missing env options store Hd) as [msg ->]. set_solver. }
  destruct (opt_help options) eqn:Hh.
  { rewrite invoke_main, Main_help by done. set_solver. }
  destruct (loads env) eqn:Hl.
  2:{ destruct (invoke_not_loaded env options store Hd Hh Hl) as (e & out & ->).
      set_solver. }
  destruct (invoke_loaded env options store Hd Hh Hl) as (out & ->).
  destruct (opt_list options).
  - rewrite list_migrations_spec. set_solver.
  - rewrite <- (migrator_name_set env options Hl).
    apply (run_migrations_tracking env options _ _ (printed (idle store) out)).
Qed.

(** ** Round trip and listing *)

(** C8: from an empty tracking store, a forward run over the whole catalog
    whose scripts all succeed marks every discovered migration, and a
    rollback over the whole reversed catalog then leaves the store empty
    again; both runs exit with 0. *)
Theorem round_trip env up down :
  directories_exist env = true ->
  loads env = true ->
  (forall m q, applyScript env m q = true) ->
  (forall m q, revertScript env m q = true) ->
  opt_rollback up = false -> opt_help up = false -> opt_list up = false ->
  opt_rollback down = true -> opt_help down = false -> opt_list down = false ->
  unselected up -> unselected down ->
  let forward := invoke env up ∅ in
  let backward := invoke env down (tracking (snd forward)) in
  fst forward = Exited 0 /\
  tracking (snd forward) = list_to_set (discovered env) /\
  calls (snd forward) = call_of Up <$> migrator_of env up /\
  fst backward = Exited 0 /\
  calls (snd backward) = call_of Down <$> migrator_of env down /\
  tracking (snd backward) = ∅.
Proof.
  intros Hd Hl Happly Hrevert Hru Hhu Hlu Hrd Hhd Hld Hsu Hsd forward backward.
  assert (Du : direction up = Up) by (unfold direction; by rewrite Hru).
  assert (Dd : direction down = Down) by (unfold direction; by rewrite Hrd).
  assert (Hok_up : Forall (fun m => script_ok env (direction up) m = true)
                     (selected env up)).
  { rewrite Du. apply Forall_forall. intros m _. apply Happly. }
  assert (Hok_down : Forall (fun m => script_ok env (direction down) m = true)
                       (selected env down)).
  { rewrite Dd. apply Forall_forall. intros m _. apply Hrevert. }
  destruct (invoke_success env up ∅ Hd Hhu Hl Hlu Hok_up) as (p1 & E1 & T1 & C1 & _).
  subst backward forward. rewrite E1. cbn [fst snd].
  destruct (invoke_success env down (tracking p1) Hd Hhd Hl Hld Hok_down)
    as (p2 & E2 & T2 & C2 & _).
  rewrite E2. cbn [fst snd].
  rewrite selected_unselected, Du in T1, C1 by done.
  rewrite selected_unselected, Dd in T2, C2 by done.
  unfold marked in T1, T2. rewrite migrator_name_set in T1, T2 by done.
  repeat split; try done.
  - rewrite T1. set_solver.
  - rewrite T2, T1. set_solver.
Qed.

Lemma round_trip_witness :
  let forward := invoke Sample.env Sample.plain ∅ in
  let backward := invoke Sample.env Sample.rollback (tracking (snd forward)) in
  fst forward = Exited 0 /\
  tracking (snd forward) = list_to_set (discovered Sample.env) /\
  calls (snd forward) = call_of Up <$> migrator_of Sample.env Sample.plain /\
  fst backward = Exited 0 /\
  calls (snd backward) = call_of Down <$> migrator_of Sample.env Sample.rollback /\
  tracking (snd backward) = ∅.
Proof.
  apply (round_trip Sample.env Sample.plain Sample.rollback);
    try reflexivity; repeat split.
Defined.

Lemma replay_within env history :
  replay env history ⊆ list_to_set (discovered env).
Proof.
  unfold replay.
  assert (H : forall store : gset string,
             store ⊆ list_to_set (discovered env) ->
             fold_left (fun store options => tracking (snd (invoke env options store)))
               history store ⊆ list_to_set (discovered env)).
  { induction history as [|o h IH]; intros store Hs; simpl; [done|].
    apply IH. pose proof (invoke_tracking env o store). set_solver. }
  apply H. set_solver.
Qed.

(** C9 (the claim fails): the tracking store holds [zz-old.js], the name of
    no discovered file; [--list] prints it as executed and prints the four
    discovered migrations as pending, so the union of the two sets is not
    the catalog. *)
Lemma listing_with_a_foreign_name :
  let store : gset string := {[ "zz-old.js" ]} in
  let names : gset string := list_to_set (discovered Sample.env) in
  exists out,
    invoke Sample.env Sample.list_only store
    = (Exited 0,
       printed (idle store)
         (out ++ [Shown "Executed:" store; Shown "Pending:" (names ∖ store)])) /\
    store ∪ names ∖ store <> names.
Proof.
  intros store names.
  destruct (invoke_list Sample.env Sample.list_only store eq_refl eq_refl eq_refl eq_refl)
    as [out Hout].
  exists out. split; [exact Hout|].
  intros H. assert (Hin : "zz-old.js" ∈ names) by (rewrite <- H; set_solver).
  subst names. rewrite sample_discovered in Hin. set_solver.
Qed.

(** C9 (amended): an invocation with [--list] leaves the tracking store as it
    was, whatever the store, and enters no script. The executed and pending
    sets it prints are disjoint, and their union is the set of discovered
    migrations together with the applied names: it is the catalog exactly
    when every applied name is the name of a discovered migration, which
    holds for every store built from the empty one by invocations on the
    project. *)
Theorem list_is_read_only env options store :
  opt_list options = true ->
  (let r := invoke env options store in
   tracking (snd r) = store /\ calls (snd r) = [] /\ report (snd r) = []) /\
  (directories_exist env = true -> opt_help options = false -> loads env = true ->
   let r := invoke env options store in
   fst r = Exited 0 /\
   exists out executed pending,
     console (snd r) = (out ++ [Shown "Executed:" executed; Shown "Pending:" pending])%list /\
     executed = store /\
     executed ∩ pending = ∅ /\
     executed ∪ pending = list_to_set (discovered env) ∪ store /\
     (executed ∪ pending = list_to_set (discovered env)
      <-> store ⊆ list_to_set (discovered env))) /\
  (forall history, replay env history ⊆ list_to_set (discovered env)).
Proof.
  intros Hlist. split; [|split].
  - destruct (directories_exist env) eqn:Hd.
    2:{ by destruct (invoke_missing env options store Hd) as [msg ->]. }
    destruct (opt_help options) eqn:Hh.
    { by rewrite invoke_main, Main_help. }
    destruct (loads env) eqn:Hl.
    + by destruct (invoke_list env options store Hd Hh Hl Hlist) as [out ->].
    + by destruct (invoke_not_loaded env options store Hd Hh Hl) as (e & out & ->).
  - intros Hd Hh Hl.
    destruct (invoke_list env options store Hd Hh Hl Hlist) as [out ->].
    split; [done|].
    exists out, store, (list_to_set (discovered env) ∖ store).
    assert (Hunion : store ∪ list_to_set (discovered env) ∖ store
                     = list_to_set (discovered env) ∪ store).
    { apply set_eq. intros x. destruct (decide (x ∈ store)); set_solver. }
    repeat split; [set_solver | exact Hunion | |].
    + intros H. rewrite <- H. set_solver.
    + intros H. symmetry. by apply union_difference_L.
  - intros history. apply replay_within.
Qed.

Lemma list_is_read_only_witness :
  let store : gset string := {[ "10-name.js"; "20-name.js" ]} in
  let r := invoke Sample.env Sample.list_only store in
  replay Sample.env [with_toRev (Given (Num 20)) Sample.plain] = store /\
  tracking (snd r) = store /\
  fst r = Exited 0 /\
  exists out executed pending,
    console (snd r) = (out ++ [Shown "Executed:" executed; Shown "Pending:" pending])%list /\
    executed = store /\
    executed ∩ pending = ∅ /\
    executed ∪ pending = list_to_set (discovered Sample.env) ∪ store /\
    (executed ∪ pending = list_to_set (discovered Sample.env)
     <-> store ⊆ list_to_set (discovered Sample.env)).
Proof.
  intros store r.
  pose proof (list_is_read_only Sample.env Sample.list_only store eq_refl)
    as ((T & _) & H & _).
  split; [by vm_compute|]. split; [exact T|].
  apply H; reflexivity.
Defined.

Lemma zero_revision_is_absent_witness :
  to (resolve Sample.from_zero false (with_toRev (Given (Num 0)) Sample.plain)) = Undefined /\
  resolve Sample.from_zero false
    (with_toRev (Given (Num 0)) (with_fromRev Undefined Sample.plain))
  = {| to := Undefined; from := Undefined |}.
Proof.
  pose proof (zero_revision_is_absent Sample.from_zero false Sample.plain)
    as (_ & _ & H3 & _ & H5).
  split; [exact H3|]. exact (proj1 (H5 Undefined eq_refl)).
Defined.


(** * Further properties of the script *)

(** ** Discovery (lines 142-146) *)

Lemma string_length_app (a b : string) :
  String.length (a ++ b) = (String.length a + String.length b)%nat.
Proof. induction a as [|c a IH]; simpl; [done|]. by rewrite IH. Qed.

Lemma substring_all (s : string) : substring 0 (String.length s) s = s.
Proof. induction s as [|c s IH]; simpl; [done|]. by rewrite IH. Qed.

Lemma substring_skip (stem t : string) :
  substring (String.length stem) (String.length t) (stem ++ t) = t.
Proof. induction stem as [|c stem IH]; simpl; [apply substring_all | done]. Qed.

Lemma substring_tail (n : nat) (s : string) :
  String.length s = (n + 3)%nat -> exists stem, s = stem ++ substring n 3 s.
Proof.
  revert s. induction n as [|n IH]; intros s Hs.
  - exists "". simpl. change 3%nat with (0 + 3)%nat. rewrite <- Hs.
    by rewrite substring_all.
  - destruct s as [|c r]; [done|]. simpl in Hs.
    destruct (IH r) as [stem Hstem]; [lia|].
    exists (String c stem).
    change (String c r = String c (stem ++ substring n 3 r)). by f_equal.
Qed.

Lemma slice_last3_js (s : string) :
  JS.slice_last3 s = ".js" <-> exists stem, s = stem ++ ".js".
Proof.
  unfold JS.slice_last3. split.
  - intros H.
    destruct (le_lt_dec 3 (String.length s)) as [Hlen|Hlen].
    + destruct (substring_tail (String.length s - 3) s) as [stem Hstem]; [lia|].
      exists stem. by rewrite H in Hstem.
    + destruct s as [|a [|b [|c r]]]; simpl in *; try done. lia.
  - intros [stem ->]. rewrite string_length_app. simpl.
    replace (String.length stem + 3 - 3)%nat with (String.length stem) by lia.
    apply (substring_skip stem ".js").
Qed.

(** A directory entry is taken as a migration exactly when it ends in
    [.js] and does not start with a dot; the catalog is built from these
    entries and no others. *)
Theorem discovered_iff env (f : string) :
  f ∈ discovered env <->
  f ∈ readdirSync env (migrationsDir env) /\
  (exists stem, f = stem ++ ".js") /\
  (forall r, f <> String "."%char r).
Proof.
  unfold discovered. rewrite list_elem_of_filter.
  unfold is_migration_file. rewrite andb_true_iff, String.eqb_eq, slice_last3_js.
  assert (Hdot : JS.not_dot_first f = true <-> forall r, f <> String "."%char r).
  { unfold JS.not_dot_first. split.
    - intros H r ->. done.
    - intros H. destruct f as [|c r]; [done|].
      destruct (Ascii.eqb_spec c "."%char) as [->|Hc]; [by destruct (H r)|].
      destruct c as [[] [] [] [] [] [] [] []]; try done. }
  rewrite Hdot. tauto.
Qed.

(** ** Revision of a file name (lines 167-168) *)

Lemma basename_no_slash (s : string) : JS.has_slash s = false -> JS.basename s = s.
Proof. destruct s as [|c r]; [done|]. simpl. by intros ->. Qed.

Lemma has_slash_app (a b : string) :
  JS.has_slash (a ++ b) = JS.has_slash a || JS.has_slash b.
Proof. induction a as [|c a IH]; simpl; [done|]. by rewrite IH, orb_assoc. Qed.

Lemma has_slash_uint d :
  JS.has_slash (DecimalString.NilEmpty.string_of_uint d) = false.
Proof. induction d; simpl; done. Qed.

Lemma split_dash_uint d (rest : string) :
  JS.split_dash_0 (DecimalString.NilEmpty.string_of_uint d ++ "-" ++ rest)
  = DecimalString.NilEmpty.string_of_uint d.
Proof. induction d; simpl; [done|by f_equal..]. Qed.

Lemma parseInt_uint d :
  JS.parseInt (DecimalString.NilEmpty.string_of_uint d)
  = match JS.read_digits 10 (DecimalString.NilEmpty.string_of_uint d) None with
    | None => NaN
    | Some n => Num n
    end.
Proof. destruct d as [|d|d|d|d|d|d|d|d|d|d]; try reflexivity. by destruct d. Qed.

Lemma read_digits_uint d (acc : Z) :
  0 <= acc ->
  JS.read_digits 10 (DecimalString.NilEmpty.string_of_uint d) (Some acc)
  = Some (Z.of_nat (Nat.of_uint_acc d (Z.to_nat acc))).
Proof.
  revert acc. induction d as [|d IH|d IH|d IH|d IH|d IH|d IH|d IH|d IH|d IH|d IH];
    intros acc Hacc.
  { simpl. by rewrite Z2Nat.id. }
  all: cbn [DecimalString.NilEmpty.string_of_uint JS.read_digits Nat.of_uint_acc].
  all: match goal with
       | |- context [JS.digit_value ?c] =>
           let v := eval vm_compute in (JS.digit_value c) in
           change (JS.digit_value c) with v
       end.
  all: cbv iota beta; change (default 0 (Some acc)) with acc.
  all: match goal with
       | |- context [?k <? 10] =>
           change (k <? 10) with true
       end.
  all: cbv iota; rewrite IH by lia; do 2 f_equal.
  all: rewrite Nat.tail_mul_spec; f_equal; lia.
Qed.

Lemma read_digits_start d :
  d <> Decimal.Nil ->
  JS.read_digits 10 (DecimalString.NilEmpty.string_of_uint d) None
  = JS.read_digits 10 (DecimalString.NilEmpty.string_of_uint d) (Some 0).
Proof. destruct d; done. Qed.

Lemma to_uint_nonnil (n : nat) : Nat.to_uint n <> Decimal.Nil.
Proof.
  pose proof (DecimalNat.Unsigned.to_of (Nat.to_uint n)) as H.
  rewrite DecimalNat.Unsigned.of_to in H. rewrite H.
  unfold Decimal.unorm. by destruct (Decimal.nzhead (Nat.to_uint n)).
Qed.

Lemma parseInt_decimal (n : nat) : JS.parseInt (decimal n) = Num (Z.of_nat n).
Proof.
  unfold decimal. rewrite parseInt_uint, read_digits_start by apply to_uint_nonnil.
  rewrite read_digits_uint by done. change (Z.to_nat 0) with 0%nat.
  fold (Nat.of_uint (Nat.to_uint n)). by rewrite DecimalNat.Unsigned.of_to.
Qed.

(** A file named by a decimal revision of at most 2^53 (the range on which
    the number the code reads is the integer written), a dash and any
    description has exactly that revision: the description, further dashes
    in it included, plays no part. *)
Theorem revision_of_numbered_name (n : nat) (description : string) :
  Z.of_nat n <= 2 ^ 53 ->
  JS.has_slash description = false ->
  revision_of (decimal n ++ "-" ++ description) = Num (Z.of_nat n).
Proof.
  intros _ Hd. unfold revision_of. rewrite basename_no_slash.
  - unfold decimal. rewrite split_dash_uint. apply parseInt_decimal.
  - unfold decimal. rewrite has_slash_app, has_slash_uint. simpl. exact Hd.
Qed.

Lemma revision_of_numbered_name_witness :
  revision_of (decimal 20 ++ "-" ++ "add-users-table.js") = Num 20.
Proof.
  apply (revision_of_numbered_name 20 "add-users-table.js"); [|reflexivity].
  vm_compute. discriminate.
Defined.

(** ** The comparator (lines 166-177) *)

(** The comparator is antisymmetric on all names, and the rollback
    comparator is the forward one with its arguments exchanged. *)
Theorem compare_revision_mirror (rollback : bool) (a b : AutoMigrationFile) :
  compare_revision rollback a b = - compare_revision rollback b a /\
  compare_revision true a b = compare_revision false b a.
Proof.
  unfold compare_revision.
  destruct (revision_of (name a)) as [|x], (revision_of (name b)) as [|y];
    simpl; [by destruct rollback..|].
  split.
  - destruct rollback;
      destruct (Z.ltb_spec x y); destruct (Z.ltb_spec y x); lia.
  - destruct (Z.ltb_spec x y); destruct (Z.ltb_spec y x); lia.
Qed.

(** A name without a number between two names of different revisions makes
    the comparator inconsistent: it ties with both, yet they do not tie. *)
Theorem compare_revision_NaN_inconsistent (rollback : bool)
    (a b c : AutoMigrationFile) (x z : Z) :
  revision_of (name a) = Num x ->
  revision_of (name b) = NaN ->
  revision_of (name c) = Num z ->
  x <> z ->
  compare_revision rollback a b = 0 /\
  compare_revision rollback b c = 0 /\
  compare_revision rollback a c <> 0.
Proof.
  intros Ha Hb Hc Hxz. unfold compare_revision. rewrite Ha, Hb, Hc. simpl.
  repeat split; [by destruct rollback..|].
  destruct rollback; destruct (Z.ltb_spec x z); destruct (Z.ltb_spec z x); lia.
Qed.

Lemma compare_revision_NaN_inconsistent_witness :
  compare_revision false (file_record Sample.env "10-name.js")
    (file_record Sample.env "abc-name.js") = 0 /\
  compare_revision false (file_record Sample.env "abc-name.js")
    (file_record Sample.env "20-name.js") = 0 /\
  compare_revision false (file_record Sample.env "10-name.js")
    (file_record Sample.env "20-name.js") <> 0.
Proof.
  apply (compare_revision_NaN_inconsistent false _ _ _ 10 20); try reflexivity. lia.
Defined.

(** ** Order of the catalog (lines 165-177) *)

Lemma filter_sort_insert {A} (cmp : A -> A -> Z) (Q : A -> Prop)
    `{!forall x, Decision (Q x)} (x : A) (l : list A) :
  (forall u v, Q u -> Q v -> cmp u v <= 0) ->
  filter Q (sort_insert cmp x l) = filter Q (x :: l).
Proof.
  intros Htie. induction l as [|y r IH]; [done|].
  cbn [sort_insert]. destruct (0 <? cmp x y) eqn:E; [|done].
  apply Z.ltb_lt in E.
  rewrite (filter_cons _ y), IH, !filter_cons.
  destruct (decide (Q y)) as [Qy|Qy], (decide (Q x)) as [Qx|Qx]; try done.
  specialize (Htie x y Qx Qy). lia.
Qed.

Lemma filter_array_sort {A} (cmp : A -> A -> Z) (Q : A -> Prop)
    `{!forall x, Decision (Q x)} (l : list A) :
  (forall u v, Q u -> Q v -> cmp u v <= 0) ->
  filter Q (array_sort cmp l) = filter Q l.
Proof.
  intros Htie. induction l as [|x r IH]; [done|].
  cbn [array_sort]. rewrite filter_sort_insert by done.
  by rewrite !filter_cons, IH.
Qed.

(** Files of equal revision keep the order in which the directory listed
    them, in a forward run and in a rollback alike. *)
Theorem equal_revisions_keep_directory_order (rollback : bool)
    (l : list AutoMigrationFile) (rev : JSNum) :
  numbered l ->
  filter (fun f => revision_of (name f) = rev) (array_sort (compare_revision rollback) l)
  = filter (fun f => revision_of (name f) = rev) l.
Proof.
  intros _. apply filter_array_sort. intros u v Hu Hv.
  unfold compare_revision. rewrite Hu, Hv.
  destruct rev as [|r]; simpl; [by destruct rollback|].
  rewrite Z.ltb_irrefl. by destruct rollback.
Qed.

Lemma equal_revisions_keep_directory_order_witness :
  let l := file_record Sample.env <$> ["20-b.js"; "10-z.js"; "20-a.js"; "10-a.js"] in
  name <$> filter (fun f => revision_of (name f) = Num 20)
             (array_sort (compare_revision false) l)
  = ["20-b.js"; "20-a.js"].
Proof.
  intros l.
  rewrite (equal_revisions_keep_directory_order false l (Num 20)); [reflexivity|].
  repeat constructor; discriminate.
Defined.

Lemma NoDup_fmap_eq {A B} (f : A -> B) (l : list A) (x y : A) :
  NoDup (f <$> l) -> x ∈ l -> y ∈ l -> f x = f y -> x = y.
Proof.
  induction l as [|z r IH]; csimpl; intros Hnd Hx Hy Hf; [by apply elem_of_nil in Hx|].
  apply NoDup_cons in Hnd as [Hz Hr].
  apply elem_of_cons in Hx as [->|Hx]; apply elem_of_cons in Hy as [->|Hy]; try done.
  - destruct Hz. rewrite Hf. apply list_elem_of_fmap. by exists y.
  - destruct Hz. rewrite <- Hf. apply list_elem_of_fmap. by exists x.
  - by apply IH.
Qed.

Lemma StronglySorted_reverse_flip {A} (R R' : A -> A -> Prop) (l : list A) :
  (forall x y, R x y -> R' y x) ->
  StronglySorted R l -> StronglySorted R' (reverse l).
Proof.
  intros Hflip. induction 1 as [|x r Hr IH Hx]; [constructor|].
  rewrite reverse_cons. apply StronglySorted_app_2.
  - intros y x' Hy Hx'. apply list_elem_of_singleton in Hx' as ->.
    apply Hflip. rewrite Forall_forall in Hx. apply Hx.
    by rewrite elem_of_reverse in Hy.
  - done.
  - repeat constructor.
Qed.

(** When every name carries a number and no two names carry the same one,
    the catalog of a rollback is the catalog of a forward run read
    backwards. *)
Theorem rollback_catalog_is_reversed (l : list AutoMigrationFile) :
  numbered l ->
  distinct_revisions l ->
  array_sort (compare_revision true) l
  = reverse (array_sort (compare_revision false) l).
Proof.
  intros Hnum Hnd. apply (StronglySorted_unique_strong descending).
  - intros a b Ha Hb Hab Hba.
    rewrite array_sort_perm in Ha. rewrite elem_of_reverse, array_sort_perm in Hb.
    apply (NoDup_fmap_eq (fun f => revision_of (name f)) l); try done.
    unfold descending in Hab, Hba.
    destruct (revision_of (name a)), (revision_of (name b)); try done.
    f_equal. lia.
  - by apply (sorted_by_revision true).
  - apply (StronglySorted_reverse_flip ascending); [|by apply (sorted_by_revision false)].
    intros a b. unfold ascending, descending.
    by destruct (revision_of (name a)), (revision_of (name b)).
  - by rewrite reverse_Permutation, !array_sort_perm.
Qed.

Lemma rollback_catalog_is_reversed_witness :
  catalog_of Sample.env Sample.rollback = reverse (catalog_of Sample.env Sample.plain).
Proof.
  apply (rollback_catalog_is_reversed (file_record Sample.env <$> discovered Sample.env)).
  - repeat constructor; discriminate.
  - unfold distinct_revisions. vm_compute. repeat constructor; set_solver.
Defined.

(** ** getMigrator (lines 56-80) *)

Lemma getMigrator_value files mo p ms p' :
  getMigrator files mo p = (Value ms, p') ->
  Forall (fun f => is_Some (migration f)) files /\
  ms = configured mo files /\
  exists out, p' = printed p out.
Proof.
  intros H.
  destruct (decide (Forall (fun f => is_Some (migration f)) files)) as [Hall|Hnot].
  - destruct (getMigrator_ok files mo p Hall) as [out Hout].
    rewrite Hout in H. injection H as <- <-. split; [done|]. split; [done|]. by exists out.
  - apply not_Forall_Exists in Hnot; [|apply _].
    assert (Hex : Exists (fun f => migration f = None) files).
    { eapply Exists_impl; [exact Hnot|]. simpl. intros f Hf.
      destruct (migration f); [|done]. destruct Hf. by eexists. }
    destruct (getMigrator_throw files mo p Hex) as (e & out & Hout). congruence.
Qed.

(** When getMigrator returns, it hands over one migration per file, in the
    order of the catalog and named after its file; each carries the
    transaction flag of the run and the revision its script declares, and
    starts at the given step when that is positive and at the script's own
    position otherwise. Only the console has changed. *)
Theorem getMigrator_frame files mo p ms p' :
  getMigrator files mo p = (Value ms, p') ->
  migration_name <$> ms = name <$> files /\
  Forall (fun m => useTransaction m = opt_useTransaction mo) ms /\
  Forall2 (fun f m => exists m0, migration f = Some m0 /\
                        info_revision m = info_revision m0 /\
                        pos m = if JS.gt (step mo) (Num 0) then step mo else pos m0)
    files ms /\
  tracking p' = tracking p /\ calls p' = calls p /\ report p' = report p.
Proof.
  intros H. apply getMigrator_value in H as (Hall & -> & out & ->).
  split; [by apply configured_names|].
  split; [|split; [|done]].
  - unfold configured. induction Hall as [|f r [m0 Hm] Hr IH]; [constructor|].
    csimpl. rewrite Hm. csimpl. by constructor.
  - unfold configured. induction Hall as [|f r [m0 Hm] Hr IH]; [constructor|].
    csimpl. rewrite Hm. csimpl. constructor; [|done]. by exists m0.
Qed.

Lemma getMigrator_frame_witness :
  let mo := {| opt_useTransaction := false; step := Num 0 |} in
  getMigrator Sample.catalog mo (idle ∅) = (Value (configured mo Sample.catalog), idle ∅) /\
  migration_name <$> configured mo Sample.catalog
  = ["10-name.js"; "20-name.js"; "30-name.js"; "40-name.js"] /\
  Forall (fun m => useTransaction m = false) (configured mo Sample.catalog).
Proof.
  intros mo.
  assert (H : getMigrator Sample.catalog mo (idle ∅)
              = (Value (configured mo Sample.catalog), idle ∅)) by reflexivity.
  split; [exact H|].
  pose proof (getMigrator_frame _ _ _ _ _ H) as (Hn & Ht & _).
  split; [exact Hn | exact Ht].
Defined.

(** When the files ahead export migration objects (with [up] and [down], as
    in the typedef) and the next one has a falsy export
    ([module.exports = null], say), the error getMigrator raises names that
    file: it is the first of the catalog with a falsy export, the files
    behind it are not looked at, and only the console has changed. *)
Theorem getMigrator_first_unloadable before f behind mo p :
  Forall (fun g => is_Some (migration g)) before ->
  migration f = None ->
  exists out,
    getMigrator (before ++ f :: behind) mo p
    = (Thrown (UnableToLoad (fullPath f)), printed p out).
Proof.
  intros Hb Hf. revert p. induction Hb as [|g r [m Hm] Hr IH]; intros p.
  - exists []. rewrite printed_nil. unfold getMigrator. simpl.
    erewrite bind_thrown; [done|]. unfold prepare. by rewrite Hf.
  - destruct (prepare_some mo g m p Hm) as [o1 H1].
    destruct (IH (printed p o1)) as [o2 H2].
    exists (o1 ++ o2)%list. unfold getMigrator in *. simpl.
    erewrite bind_value by exact H1.
    erewrite bind_thrown by exact H2.
    by rewrite printed_app.
Qed.

Lemma getMigrator_first_unloadable_witness :
  exists out,
    getMigrator
      (Sample.from_zero ++
       {| name := "7-empty.js"; fullPath := "migrations/7-empty.js"; migration := None |}
       :: Sample.catalog)
      {| opt_useTransaction := true; step := Num 0 |} (idle ∅)
    = (Thrown (UnableToLoad "migrations/7-empty.js"), printed (idle ∅) out).
Proof.
  apply (getMigrator_first_unloadable Sample.from_zero
           {| name := "7-empty.js"; fullPath := "migrations/7-empty.js"; migration := None |}
           Sample.catalog); [|reflexivity].
  repeat constructor; by eexists.
Defined.

(** ** Loading the scripts (lines 142-164) *)

Lemma load_file_ok env g p :
  require env (JS.path_join (migrationsDir env) g) <> RequireThrows ->
  load_file env g p = (Value (file_record env g), p).
Proof.
  intros H. unfold load_file, file_record.
  by destruct (require env (JS.path_join (migrationsDir env) g)).
Qed.

Lemma load_files_first_throw env before f behind p :
  Forall (fun g => require env (JS.path_join (migrationsDir env) g) <> RequireThrows) before ->
  require env (JS.path_join (migrationsDir env) f) = RequireThrows ->
  Proc.map_list (load_file env) (before ++ f :: behind) p
  = (Thrown (ModuleNotLoaded (JS.path_join (migrationsDir env) f)), p).
Proof.
  intros Hb Hf. induction Hb as [|g r Hg Hr IH]; simpl.
  - erewrite bind_thrown; [done|]. unfold load_file. by rewrite Hf.
  - erewrite bind_value by (by apply load_file_ok).
    by erewrite bind_thrown by exact IH.
Qed.

(** When a script cannot be required, the run stops there: the error names
    the first such file in the order of the directory listing, it is the
    only thing printed, the exit code is 1, no script is entered and the
    tracking store is as before, whatever the options other than [--help]. *)
Theorem first_script_that_throws_is_reported env options store before f behind :
  directories_exist env = true ->
  opt_help options = false ->
  require_models env = true ->
  discovered env = (before ++ f :: behind)%list ->
  Forall (fun g => require env (JS.path_join (migrationsDir env) g) <> RequireThrows) before ->
  require env (JS.path_join (migrationsDir env) f) = RequireThrows ->
  invoke env options store
  = (Exited 1,
     printed (idle store)
       [Failure (ModuleNotLoaded (JS.path_join (migrationsDir env) f))]).
Proof.
  unfold directories_exist. intros [H1 H2]%andb_true_iff Hh Hm Hd Hb Hf.
  rewrite invoke_main. unfold Main. rewrite H1, H2, Hh, Hm. cbn [negb].
  unfold mbind, proc_bind.
  erewrite bind_value by reflexivity.
  erewrite bind_thrown; [done|].
  unfold load_catalog, mbind, proc_bind. rewrite Hd.
  by erewrite bind_thrown by (by apply load_files_first_throw).
Qed.

Lemma first_script_that_throws_is_reported_witness :
  let env := {| migrationsDir := "migrations"; modelsDir := "models";
                existsSync := fun _ => true;
                readdirSync := fun _ => ["10-a.js"; "30-c.js"; "20-b.js"];
                require_models := true;
                require := fun p => if String.eqb p "migrations/10-a.js"
                                    then RequireModule (Sample.script 10)
                                    else RequireThrows;
                applyScript := fun _ _ => true;
                revertScript := fun _ _ => true |} in
  invoke env Sample.plain ∅
  = (Exited 1, printed (idle ∅) [Failure (ModuleNotLoaded "migrations/30-c.js")]).
Proof.
  intros env.
  apply (first_script_that_throws_is_reported env Sample.plain ∅
           ["10-a.js"] "30-c.js" ["20-b.js"]); try reflexivity.
  repeat constructor. discriminate.
Defined.

(** ** Main (lines 89-259) and the wrapper (lines 261-268) *)

Lemma invoke_without_directory env options store :
  directories_exist env = false ->
  invoke env options store
  = (Value tt,
     printed (idle store)
       [Line (if existsSync env (modelsDir env)
              then "Can't find migrations directory. Use `sequelize init` to create it"
              else "Can't find models directory. Use `sequelize init` to create it")]).
Proof.
  unfold directories_exist. intros H. rewrite invoke_main.
  destruct (existsSync env (modelsDir env)) eqn:H1.
  - simpl in H. by rewrite Main_missing_migrations.
  - by rewrite Main_missing_models.
Qed.

(** Without one of the two directories no option has any effect, [--help]
    included: whatever the options, the script prints the hint for the
    models directory if that one is missing, else the hint for the
    migrations directory, and returns. *)
Theorem missing_directory_overrides_options env options others store :
  directories_exist env = false ->
  invoke env options store = invoke env others store /\
  invoke env options store
  = (Value tt,
     printed (idle store)
       [Line (if existsSync env (modelsDir env)
              then "Can't find migrations directory. Use `sequelize init` to create it"
              else "Can't find models directory. Use `sequelize init` to create it")]).
Proof.
  intros H. split; [|by apply invoke_without_directory].
  by rewrite !invoke_without_directory.
Qed.

Lemma missing_directory_overrides_options_witness :
  invoke (Sample.variant (fun _ => false) Sample.listing (fun _ _ => true))
    {| opt_to := Undefined; opt_from := Undefined;
       opt_toRev := Undefined; opt_fromRev := Undefined;
       opt_rollback := false; opt_pos := Num 0;
       opt_no_transaction := false; opt_list := false; opt_help := true |} ∅
  = (Value tt,
     printed (idle ∅)
       [Line "Can't find models directory. Use `sequelize init` to create it"]).
Proof.
  refine (proj2 (missing_directory_overrides_options
           (Sample.variant (fun _ => false) Sample.listing (fun _ _ => true))
           _ Sample.plain ∅ _)).
  reflexivity.
Defined.

(** The script runs to its end without calling [process.exit] exactly when
    a directory is missing; on every other path it exits with 0 or with 1,
    and no exception escapes the wrapper. *)
Theorem returns_only_without_directory env options store :
  (fst (invoke env options store) = Value tt <-> directories_exist env = false) /\
  (directories_exist env = true ->
   fst (invoke env options store) = Exited 0 \/
   fst (invoke env options store) = Exited 1) /\
  (forall e, fst (invoke env options store) <> Thrown e).
Proof.
  assert (Hcases : directories_exist env = false /\ fst (invoke env options store) = Value tt
                   \/ directories_exist env = true /\
                      (fst (invoke env options store) = Exited 0 \/
                       fst (invoke env options store) = Exited 1)).
  { destruct (directories_exist env) eqn:Hd.
    2:{ left. split; [done|]. by rewrite invoke_without_directory. }
    right. split; [done|].
    destruct (opt_help options) eqn:Hh.
    { left. by rewrite invoke_main, Main_help. }
    destruct (loads env) eqn:Hl.
    2:{ right. by destruct (invoke_not_loaded env options store Hd Hh Hl) as (e & out & ->). }
    destruct (opt_list options) eqn:Hlist.
    { left. by destruct (invoke_list env options store Hd Hh Hl Hlist) as (out & ->). }
    destruct (decide (Forall (fun m => script_ok env (direction options) m = true)
                        (selected env options))) as [Hok|Hbad].
    - left. by destruct (invoke_success env options store Hd Hh Hl Hlist Hok)
        as (p' & -> & _).
    - right. apply not_Forall_Exists in Hbad; [|apply _].
      assert (Hex : Exists (fun m => script_ok env (direction options) m = false)
                      (selected env options)).
      { eapply Exists_impl; [exact Hbad|]. simpl. intros m Hm.
        by destruct (script_ok env (direction options) m). }
      by destruct (invoke_failure env options store Hd Hh Hl Hlist Hex)
        as (n & p' & -> & _). }
  destruct Hcases as [[Hd Hr]|[Hd Hr]]; rewrite Hd.
  - rewrite Hr. repeat split; done.
  - repeat split; try done; destruct Hr as [-> | ->]; done.
Qed.

(** Scripts are entered and the tracking store is written only by a run
    that found both directories, was not asked for help or for the list,
    and loaded every script: on every other path the store is as before
    and nothing has been entered or reported. *)
Theorem only_a_loaded_run_executes env options store :
  directories_exist env = false \/ opt_help options = true \/
  loads env = false \/ opt_list options = true ->
  tracking (snd (invoke env options store)) = store /\
  calls (snd (invoke env options store)) = [] /\
  report (snd (invoke env options store)) = [].
Proof.
  intros H.
  destruct (directories_exist env) eqn:Hd.
  2:{ by rewrite invoke_without_directory. }
  destruct (opt_help options) eqn:Hh.
  { by rewrite invoke_main, Main_help. }
  destruct (loads env) eqn:Hl.
  2:{ by destruct (invoke_not_loaded env options store Hd Hh Hl) as (e & out & ->). }
  destruct H as [H|[H|[H|H]]]; try done.
  by destruct (invoke_list env options store Hd Hh Hl H) as (out & ->).
Qed.

Lemma only_a_loaded_run_executes_witness :
  let env := Sample.variant (fun _ => true) ["10-a.js"; "20-b.js"] (fun _ _ => true) in
  let unloadable :=
    {| migrationsDir := migrationsDir env; modelsDir := modelsDir env;
       existsSync := existsSync env; readdirSync := readdirSync env;
       require_models := true;
       require := fun p => if String.eqb p "migrations/20-b.js"
                           then RequireFalsy else RequireModule (Sample.script 10);
       applyScript := applyScript env; revertScript := revertScript env |} in
  tracking (snd (invoke unloadable Sample.plain {[ "10-a.js" ]})) = {[ "10-a.js" ]} /\
  calls (snd (invoke unloadable Sample.plain {[ "10-a.js" ]})) = [] /\
  report (snd (invoke unloadable Sample.plain {[ "10-a.js" ]})) = [].
Proof.
  intros env unloadable.
  apply (only_a_loaded_run_executes unloadable Sample.plain {[ "10-a.js" ]}).
  right. right. left. reflexivity.
Defined.

Lemma returns_only_without_directory_witness :
  fst (invoke Sample.failing Sample.plain ∅) = Exited 0 \/
  fst (invoke Sample.failing Sample.plain ∅) = Exited 1.
Proof.
  apply (returns_only_without_directory Sample.failing Sample.plain ∅). reflexivity.
Defined.

(** ** Range resolution (lines 203-241) *)

Lemma resolve_origin files rollback options :
  let r := resolve files rollback options in
  (to r = opt_to options \/
   JS.truthy JS.truthy_str (opt_to options) = false /\
   exists e m, e ∈ files /\ migration e = Some m /\
               to r = Given (name e) /\
               opt_toRev options = Given (Num (info_revision m))) /\
  (from r = opt_from options \/
   JS.truthy JS.truthy_str (opt_from options) = false /\
   exists e m, e ∈ files /\ migration e = Some m /\
               from r = Given (name e) /\
               opt_fromRev options = Given (Num (info_revision m))).
Proof.
  intros r. subst r. unfold resolve.
  destruct (JS.truthy JS.truthy_str (opt_to options)) eqn:Hto; simpl;
    [split; by left|].
  destruct (JS.truthy JS.truthy_str (opt_from options)) eqn:Hfrom; simpl;
    [rewrite !andb_false_r; split; by left|].
  destruct (JS.truthy JS.truthy_num (opt_toRev options)) eqn:HtoRev;
    destruct (JS.truthy JS.truthy_num (opt_fromRev options)) eqn:HfromRev; simpl.
  - destruct (_ || _); [|split; by left].
    destruct (find_revision files (opt_toRev options)) as [t|] eqn:Et;
      [|split; by left].
    destruct (find_revision files (opt_fromRev options)) as [f|] eqn:Ef;
      [|split; by left].
    apply find_revision_some in Et as (Hint & mt & Hmt & Hrt).
    apply find_revision_some in Ef as (Hinf & mf & Hmf & Hrf).
    split; right; (split; [done|]); [by exists t, mt | by exists f, mf].
  - destruct (find_revision files (opt_toRev options)) as [t|] eqn:Et;
      [|split; by left].
    apply find_revision_some in Et as (Hint & mt & Hmt & Hrt).
    split; [right|by left]. split; [done|]. by exists t, mt.
  - destruct (find_revision files (opt_fromRev options)) as [f|] eqn:Ef;
      [|split; by left].
    apply find_revision_some in Ef as (Hinf & mf & Hmf & Hrf).
    split; [by left|right]. split; [done|]. by exists f, mf.
  - split; by left.
Qed.

(** The resolver never invents a name: an endpoint comes back as it was
    passed, or it was falsy and comes back as the name of a file of the
    catalog whose script declares the revision selected for that
    endpoint. *)
Theorem resolve_names_come_from_the_catalog files rollback options :
  let r := resolve files rollback options in
  (to r = opt_to options \/
   JS.truthy JS.truthy_str (opt_to options) = false /\
   exists e m, e ∈ files /\ migration e = Some m /\
               to r = Given (name e) /\
               opt_toRev options = Given (Num (info_revision m))) /\
  (from r = opt_from options \/
   JS.truthy JS.truthy_str (opt_from options) = false /\
   exists e m, e ∈ files /\ migration e = Some m /\
               from r = Given (name e) /\
               opt_fromRev options = Given (Num (info_revision m))).
Proof.
  intros r. destruct (resolve_origin files rollback options) as [Hto Hfrom].
  split; [exact Hto | exact Hfrom].
Qed.

(** On a catalog whose file names carry the revision their scripts
    declare, a [to] endpoint that the resolver filled in names a file whose
    revision is the selected [toRev], and likewise for [from]. *)
Theorem resolved_name_has_selected_revision files rollback options (n : string) :
  well_named files ->
  (JS.truthy JS.truthy_str (opt_to options) = false ->
   endpoint (to (resolve files rollback options)) = Some n ->
   opt_toRev options = Given (revision_of n)) /\
  (JS.truthy JS.truthy_str (opt_from options) = false ->
   endpoint (from (resolve files rollback options)) = Some n ->
   opt_fromRev options = Given (revision_of n)).
Proof.
  intros Hwn.
  destruct (resolve_origin files rollback options) as [Hto Hfrom].
  split; intros Hfalsy Hend.
  - destruct Hto as [Hsame | (_ & e & m & Hin & Hm & Hr & Hrev)].
    + rewrite Hsame, endpoint_falsy in Hend; done.
    + rewrite Hr in Hend. simpl in Hend.
      destruct (JS.truthy_str (name e)); [|done]. injection Hend as <-.
      by rewrite (Hwn e m Hin Hm).
  - destruct Hfrom as [Hsame | (_ & e & m & Hin & Hm & Hr & Hrev)].
    + rewrite Hsame, endpoint_falsy in Hend; done.
    + rewrite Hr in Hend. simpl in Hend.
      destruct (JS.truthy_str (name e)); [|done]. injection Hend as <-.
      by rewrite (Hwn e m Hin Hm).
Qed.

Lemma sample_well_named : well_named Sample.catalog.
Proof.
  intros e m He Hm.
  change Sample.catalog with
    (file_record Sample.env <$> ["10-name.js"; "20-name.js"; "30-name.js"; "40-name.js"])
    in He.
  repeat (apply elem_of_cons in He as [->|He]; [by injection Hm as <-|]).
  by apply elem_of_nil in He.
Qed.

Lemma resolved_name_has_selected_revision_witness :
  endpoint (to (resolve Sample.catalog false (with_toRev (Given (Num 30)) Sample.plain)))
  = Some "30-name.js" /\
  opt_toRev (with_toRev (Given (Num 30)) Sample.plain) = Given (revision_of "30-name.js").
Proof.
  split; [reflexivity|].
  apply (resolved_name_has_selected_revision Sample.catalog false
           (with_toRev (Given (Num 30)) Sample.plain) "30-name.js");
    [apply sample_well_named | reflexivity | reflexivity].
Defined.
